(** * download_and_unzip_db.py: release resolution, fetch and extraction

    A shallow embedding of [src/download_and_unzip_db.py].  The script talks
    to three outside parties: the printer [pr], the network (through
    [requests]) and the file system (through [pathlib], [open] and
    [zipfile]).  Their state is threaded explicitly through a small
    state-and-exception monad [M]; every Python function of the script is a
    computation in [M] carrying the source's name.  What the libraries do
    ([requests], [zipfile], [os], [rich]) is modelled next to the script,
    each call under the name it has in Python.

    The file has three parts: the model, sample inputs, and the properties
    with their proofs. *)

From Stdlib Require Import ZArith Lia Ascii.
From stdpp Require Import base option list strings pretty sorting gmap.

Local Open Scope string_scope.
Local Open Scope list_scope.
Local Open Scope Z_scope.

(** ** Python exceptions

    The classes that the script raises itself, or that the library calls
    it makes raise on the paths modelled here, each with the text that
    [str(e)] gives; [OtherException] stands for any other class, by its
    name.  Every one of them is a subclass of [Exception], so
    [except Exception] catches them all. *)

Inductive exn : Type :=
  | Exception (msg : string)
  | ValueError (msg : string)
  | FileNotFoundError (msg : string)
  | FileExistsError (msg : string)
  | NotADirectoryError (msg : string)
  | IsADirectoryError (msg : string)
  | BadZipFile (msg : string)
  | JSONDecodeError (msg : string)
  | RequestException (msg : string)
  | HTTPError (status_code : Z) (msg : string)
  | OverflowError (msg : string)
  | OtherException (class msg : string).

(** [str(e)] *)
Definition str (e : exn) : string :=
  match e with
  | Exception m | ValueError m | FileNotFoundError m | FileExistsError m
  | NotADirectoryError m | IsADirectoryError m | BadZipFile m
  | JSONDecodeError m | RequestException m | HTTPError _ m
  | OverflowError m | OtherException _ m => m
  end.

(** The exceptions of the [requests] package that stand for a failed
    transfer: transport failures and the [HTTPError] of [raise_for_status]. *)
Definition is_network_error (e : exn) : bool :=
  match e with
  | RequestException _ | HTTPError _ _ => true
  | _ => false
  end.

(** ** The world: file system and observable events *)

Abbreviation path := (list string).

Inductive node : Type :=
  | File (content : string)
  | Dir.

(** What the script does to the outside, in the order it does it: calls of
    the printer [pr], HTTP requests, and the state of the [rich] progress
    task after each update. *)
Inductive event : Type :=
  | PrTic
  | PrToc
  | PrTitle (msg : string)
  | PrInfo (msg : string)
  | PrInfoDownloading (total_size chunk_size : Z)    (* "Downloading ... MB with ...KB chunks..." *)
  | PrError (msg : string)
  | PrGreen (msg : string)
  | PrYes (msg : string)
  | HttpGet (url : string) (timeout : Z) (stream : bool)
  | ProgressAddTask (total : Z)
  | ProgressUpdate (completed total : Z).

Record world : Type := World {
  files : gmap path node;
  events : list event
}.

(** ** The monad *)

Inductive result (A : Type) : Type :=
  | Ok (a : A)
  | Raise (e : exn).
Arguments Ok {A} a.
Arguments Raise {A} e.

(** A computation over a state [S] returns a value or raises, and leaves a
    state behind in both cases (what was written before an exception stays
    written). *)
Definition ST (S A : Type) : Type := S → result A * S.

Definition ret {S A} (a : A) : ST S A := λ s, (Ok a, s).

Definition raise {S A} (e : exn) : ST S A := λ s, (Raise e, s).

Definition bind {S A B} (m : ST S A) (k : A → ST S B) : ST S B :=
  λ s, match m s with
       | (Ok a, s') => k a s'
       | (Raise e, s') => (Raise e, s')
       end.

(** [try: m except Exception as e: h e] *)
Definition try_except {S A} (m : ST S A) (h : exn → ST S A) : ST S A :=
  λ s, match m s with
       | (Ok a, s') => (Ok a, s')
       | (Raise e, s') => h e s'
       end.

Definition get {S} : ST S S := λ s, (Ok s, s).

(** [FS] computations touch the file system only, [M] computations the
    whole world. *)
Abbreviation FS := (ST (gmap path node)).
Abbreviation M := (ST world).

Definition lift_fs {A} (m : FS A) : M A :=
  λ w, match m (files w) with
       | (r, fs') => (r, World fs' (events w))
       end.

Definition get_files : M (gmap path node) := λ w, (Ok (files w), w).

Definition emit (ev : event) : M unit :=
  λ w, (Ok tt, World (files w) (events w ++ [ev])).

Declare Scope py_scope.
Delimit Scope py_scope with py.
Notation "x <- m ;; k" := (bind m (λ x, k))
  (at level 100, m at next level, right associativity) : py_scope.
Notation "m ;; k" := (bind m (λ _, k))
  (at level 100, right associativity) : py_scope.
Local Open Scope py_scope.

(** ** The network, as [requests] shows it *)

(** One element of the ["assets"] array of the release JSON. *)
Record asset : Type := Asset {
  name : string;
  browser_download_url : string
}.

(** The decoded release JSON; [assets = None] when the object has no
    ["assets"] key. *)
Record release : Type := Release {
  assets : option (list asset)
}.

(** A response body read with [iter_content]: the chunks that arrive, and
    the message of the transport failure that ends the stream early, if
    any. *)
Record stream : Type := Stream {
  chunks : list string;
  broken : option string
}.

(** What [int(...)] makes of the value of a header: a number, or a
    [ValueError] with the given text. *)
Inductive header : Type :=
  | Numeric (n : Z)
  | NotNumeric (msg : string).

(** A [requests.Response].  [content_length] is the ["content-length"]
    header, [None] when the response has none.  [json] is the decoded body,
    [None] when the body is not valid JSON, in which case [json_error] is
    the text of the exception that [response.json()] raises.  [url] is
    [response.url], the URL that was finally answered. *)
Record response : Type := Response {
  status_code : Z;
  reason : string;
  content_length : option header;
  json : option release;
  iter_content : stream;
  url : string;
  json_error : string
}.

(** What [requests.get] comes back with: an exception raised by the
    transport (connection refused, timeout, too many redirects) or a
    response. *)
Inductive reply : Type :=
  | ConnectionFailed (msg : string)
  | Replied (r : response).

(** ** Archives, as [zipfile] shows them *)

Record ZipInfo : Type := Zip_Info {
  filename : string;
  data : string
}.

(** What [zipfile.ZipFile(path, "r")] makes of the bytes of a file: the
    archive's members in central-directory order, or nothing when it
    cannot read them, in which case [read_error] is the exception that it
    raises ([BadZipFile] with one text or another, or another class). *)
Record zip_reader : Type := Zip_Reader {
  read_members :> string → option (list ZipInfo);
  read_error : string → exn
}.

(** ** Paths supplied by [tools.paths.ProjectPaths] *)

Record ProjectPaths : Type := Project_Paths {
  tipitaka_translation_db_tarball : path;
  tipitaka_translation_db_dir : path
}.

(** ** Python truthiness of an optional string ([None] and [""] are false) *)
Definition truthy (o : option string) : bool :=
  match o with
  | None => false
  | Some s => if decide (s = "") then false else true
  end.

Definition api_url : string :=
  "https://api.github.com/repos/digitalpalidictionary/tipitaka-translation-db/releases/latest".

Definition asset_name : string := "tipitaka-translation-data.db.zip".

(** The [for asset in ...] loop of [download_latest_release]:
    [download_url] is the variable assigned before the [break]. *)
Fixpoint scan_assets (l : list asset) (download_url : option string)
  : option string :=
  match l with
  | [] => download_url
  | a :: rest =>
      if decide (name a = asset_name)
      then Some (browser_download_url a)          (* break *)
      else scan_assets rest download_url
  end.

(** [response.raise_for_status()]: [requests] raises for the client and
    server error classes only, with a text made of the status, the reason
    and [response.url]. *)
Definition http_error_msg (r : response) : string :=
  pretty (status_code r) +:+
  (if decide (status_code r < 500) then " Client Error: " else " Server Error: ")
  +:+ reason r +:+ " for url: " +:+ url r.

Definition raise_for_status (r : response) : M unit :=
  if decide (400 ≤ status_code r < 600)
  then raise (HTTPError (status_code r) (http_error_msg r))
  else ret tt.

(** [int(response.headers.get("content-length", 0))] *)
Definition int_header (h : option header) : M Z :=
  match h with
  | None => ret 0
  | Some (Numeric n) => ret n
  | Some (NotNumeric msg) => raise (ValueError msg)
  end.

(** [n / (1024 * 1024)] is a true division: it raises [OverflowError] when
    the quotient, rounded to the nearest float, is beyond the largest
    one. *)
Definition float_overflow (n : Z) : bool :=
  bool_decide (2 ^ 1044 - 2 ^ 990 ≤ Z.abs n).

(** ** The file system, as [os], [pathlib] and [open] show it

    A path is the list of its components below the root, already
    normalised; the root [[]] is always a directory.  The model has
    directories and regular files only (no links, no permissions, no full
    disk), and is meant for tree-shaped maps, in which what lies above an
    existing node is a directory.  On a real file system [open] and
    [makedirs] follow a symbolic link: what is proved here of the paths
    that a call leaves alone is proved of file systems without links. *)

Definition node_at (fs : gmap path node) (p : path) : option node :=
  match p with
  | [] => Some Dir
  | _ => fs !! p
  end.

(** [os.path.exists(p)], [Path.exists()] *)
Definition path_exists (fs : gmap path node) (p : path) : bool :=
  match node_at fs p with
  | Some _ => true
  | None => false
  end.

(** [os.path.isdir(p)] *)
Definition path_isdir (fs : gmap path node) (p : path) : bool :=
  match node_at fs p with
  | Some Dir => true
  | _ => false
  end.

(** [os.path.dirname(p)], [Path.parent] *)
Definition dirname (p : path) : path := removelast p.

(** [Path.name] *)
Definition path_name (p : path) : string := default "" (last p).

(** [str(p)] for an absolute path *)
Definition path_str (p : path) : string :=
  foldr (λ c acc, "/" +:+ c +:+ acc) "" p.

(** [os.mkdir(p)] *)
Definition os_mkdir (p : path) : FS unit :=
  λ fs,
    match node_at fs p with
    | Some _ => (Raise (FileExistsError (path_str p)), fs)
    | None =>
        match node_at fs (dirname p) with
        | Some Dir => (Ok tt, <[p := Dir]> fs)
        | Some (File _) => (Raise (NotADirectoryError (path_str p)), fs)
        | None => (Raise (FileNotFoundError (path_str p)), fs)
        end
    end.

(** [os.makedirs(p, exist_ok=True)] and [Path(p).mkdir(parents=True,
    exist_ok=True)], walked from the root down: [base] is the part of the
    path already known to be a directory, [rest] what is left below it.  A
    missing component is created, a directory is stepped into, and a regular
    file in the way makes the call raise: [FileExistsError] when it is the
    last component, [NotADirectoryError] above that. *)
Fixpoint makedirs_from (base : path) (rest : list string) : FS unit :=
  match rest with
  | [] => ret tt
  | c :: rest' =>
      λ fs,
        match fs !! (base ++ [c]) with
        | None => makedirs_from (base ++ [c]) rest' (<[base ++ [c] := Dir]> fs)
        | Some Dir => makedirs_from (base ++ [c]) rest' fs
        | Some (File _) =>
            (Raise (match rest' with
                    | [] => FileExistsError (path_str (base ++ [c]))
                    | _ => NotADirectoryError (path_str (base ++ [c]))
                    end), fs)
        end
  end.

Definition makedirs (p : path) : FS unit := makedirs_from [] p.

(** [with open(p, "wb") as target: target.write(content)] *)
Definition write_file (p : path) (content : string) : FS unit :=
  λ fs,
    match node_at fs p with
    | Some Dir => (Raise (IsADirectoryError (path_str p)), fs)
    | _ =>
        match node_at fs (dirname p) with
        | Some Dir => (Ok tt, <[p := File content]> fs)
        | Some (File _) => (Raise (NotADirectoryError (path_str p)), fs)
        | None => (Raise (FileNotFoundError (path_str p)), fs)
        end
    end.

(** [f.write(chunk)] on the file opened at [p] *)
Definition f_write (p : path) (chunk : string) : FS unit :=
  λ fs,
    match fs !! p with
    | Some (File c) => (Ok tt, <[p := File (c +:+ chunk)]> fs)
    | _ => (Ok tt, fs)
    end.

(** ** [zipfile]

    The platform is POSIX: [os.path.sep] is ["/"], there is no drive letter
    and no alternative separator.  The archive is decoded when it is opened,
    and a member's data is what the archive held then; it is taken as
    readable (no encryption, no CRC failure while copying). *)

(** [s.split("/")] *)
Fixpoint split_slash (s : string) : list string :=
  match s with
  | EmptyString => [""]
  | String c s' =>
      if decide (c = "/"%char) then "" :: split_slash s'
      else match split_slash s' with
           | [] => [String c ""]
           | h :: t => String c h :: t
           end
  end.

(** [s.endswith("/")] *)
Fixpoint endswith_slash (s : string) : bool :=
  match s with
  | EmptyString => false
  | String c EmptyString => if decide (c = "/"%char) then true else false
  | String _ s' => endswith_slash s'
  end.

(** [ZipInfo.is_dir()] *)
Definition is_dir (m : ZipInfo) : bool := endswith_slash (filename m).

(** [invalid_path_parts = ('', os.path.curdir, os.path.pardir)] *)
Definition invalid_path_parts : list string := [""; "."; ".."].

(** The [arcname] of [ZipFile._extract_member]: the member's file name cut
    at the separators, without the invalid parts. *)
Definition arcname (m : ZipInfo) : list string :=
  filter (λ x, x ∉ invalid_path_parts) (split_slash (filename m)).

(** [ZipFile._extract_member(member, targetpath, pwd)] *)
Definition _extract_member (member : ZipInfo) (targetpath : path) : FS unit :=
  if bool_decide (arcname member = []) && negb (is_dir member)
  then raise (ValueError "Empty filename.")
  else
    let targetpath := targetpath ++ arcname member in
    let upperdirs := dirname targetpath in
    (fs <- get ;;
     if negb (bool_decide (upperdirs = [])) && negb (path_exists fs upperdirs)
     then makedirs upperdirs
     else ret tt) ;;
    if is_dir member
    then (fs <- get ;;
          if negb (path_isdir fs targetpath) then os_mkdir targetpath
          else ret tt)
    else write_file targetpath (data member).

(** [ZipFile.getinfo(name)]: [NameToInfo] is filled in central-directory
    order, so the last member of that name is the one found. *)
Definition getinfo (filelist : list ZipInfo) (name : string) : option ZipInfo :=
  last (filter (λ m, filename m = name) filelist).

(** [ZipFile.namelist()] *)
Definition namelist (filelist : list ZipInfo) : list string :=
  filename <$> filelist.

Fixpoint extract_members (members : list ZipInfo) (path : path) : FS unit :=
  match members with
  | [] => ret tt
  | zipinfo :: rest =>
      _extract_member zipinfo path ;;
      extract_members rest path
  end.

(** [ZipFile.extractall(path)]: every name of [namelist()] is looked up
    with [getinfo] and extracted. *)
Definition extractall (filelist : list ZipInfo) (path : path) : FS unit :=
  extract_members (omap (getinfo filelist) (namelist filelist)) path.

Section Script.

(** The outside: the network, the ZIP reader of [zipfile] and the
    project's paths. *)
Variable requests : string → reply.
Variable zip_decode : zip_reader.
Variable pth : ProjectPaths.

Definition requests_get (url : string) (timeout : Z) (streamed : bool)
  : M response :=
  emit (HttpGet url timeout streamed) ;;
  match requests url with
  | ConnectionFailed msg => raise (RequestException msg)
  | Replied r => ret r
  end.

Definition response_json (r : response) : M release :=
  match json r with
  | None => raise (JSONDecodeError (json_error r))
  | Some d => ret d
  end.

Definition download_latest_release : M (option string) :=
  emit (PrInfo "Downloading latest release from GitHub...") ;;
  try_except
    (response <- requests_get api_url 10 false ;;
     raise_for_status response ;;
     release_data <- response_json response ;;
     let download_url := scan_assets (default [] (assets release_data)) None in
     if negb (truthy download_url)
     then raise (Exception "Could not find zip file in latest release")
     else ret download_url)
    (λ e,
     emit (PrError ("Error getting latest release: " +:+ str e)) ;;
     ret None).

Definition chunk_size : Z := 1024 * 1024.

(** [len(chunk)] *)
Definition len (chunk : string) : Z := Z.of_nat (String.length chunk).

(** The [for chunk in response.iter_content(...)] loop.  [f] is the open
    file, [total] and [completed] the two fields of the [rich] task:
    [progress.update(task, advance=n)] adds [n] to [completed]. *)
Fixpoint download_loop (f : path) (total completed : Z)
    (l : list string) (broken : option string) : M unit :=
  match l with
  | [] =>
      match broken with
      | None => ret tt
      | Some msg => raise (RequestException msg)
      end
  | chunk :: rest =>
      if decide (chunk = "")
      then download_loop f total completed rest broken
      else
        lift_fs (f_write f chunk) ;;
        emit (ProgressUpdate (completed + len chunk) total) ;;
        download_loop f total (completed + len chunk) rest broken
  end.

(** The [try] block of [ensure_zip_exists] with its handler: the download
    of [download_url] to the tarball path. *)
Definition download_file (download_url : string) : M unit :=
  try_except
    (response <- requests_get download_url 60 true ;;
     raise_for_status response ;;
     total_size <- int_header (content_length response) ;;
     (if float_overflow total_size
      then raise (OverflowError "integer division result too large for a float")
      else ret tt) ;;
     emit (PrInfoDownloading total_size chunk_size) ;;
     lift_fs (makedirs (tipitaka_translation_db_dir pth)) ;;
     lift_fs (write_file (tipitaka_translation_db_tarball pth) "") ;;
     emit (ProgressAddTask total_size) ;;
     download_loop (tipitaka_translation_db_tarball pth) total_size 0
       (chunks (iter_content response)) (broken (iter_content response)) ;;
     emit (PrInfo "Download complete."))
    (λ e,
     emit (PrError ("Error downloading file: " +:+ str e)) ;;
     raise e).

Definition ensure_zip_exists : M unit :=
  fs <- get_files ;;
  if negb (path_exists fs (tipitaka_translation_db_tarball pth))
  then
    emit (PrInfo "Tipitaka translation zip not found") ;;
    emit (PrInfo "Downloading from GitHub releases...") ;;
    download_url <- download_latest_release ;;
    if negb (truthy download_url)
    then raise (Exception "Failed to get download URL")
    else download_file (default "" download_url)
  else ret tt.

(** [zipfile.ZipFile(zip_path, "r")] *)
Definition ZipFile (zip_path : path) : FS (list ZipInfo) :=
  λ fs,
    match node_at fs zip_path with
    | None => (Raise (FileNotFoundError (path_str zip_path)), fs)
    | Some Dir => (Raise (IsADirectoryError (path_str zip_path)), fs)
    | Some (File content) =>
        match zip_decode content with
        | None => (Raise (read_error zip_decode content), fs)
        | Some filelist => (Ok filelist, fs)
        end
    end.

Definition unzip_file (zip_path destination_dir : path) : M unit :=
  emit (PrGreen ("unzipping " +:+ path_name zip_path)) ;;
  fs <- get_files ;;
  if negb (path_exists fs zip_path)
  then raise (FileNotFoundError ("Zip file not found: " +:+ path_str zip_path))
  else
    lift_fs (makedirs destination_dir) ;;
    zip_ref <- lift_fs (ZipFile zip_path) ;;
    lift_fs (extractall zip_ref destination_dir) ;;
    emit (PrYes "ok").

(** The body of the [try] of [main]. *)
Definition pipeline : M unit :=
  ensure_zip_exists ;;
  unzip_file (tipitaka_translation_db_tarball pth)
             (tipitaka_translation_db_dir pth).

Definition main : M unit :=
  emit PrTic ;;
  emit (PrTitle "unzip tipiṭaka translations db") ;;
  try_except pipeline
    (λ e,
     emit (PrError "An error occurred during extraction") ;;
     emit (PrError (str e))) ;;
  emit PrToc.

End Script.

(** ** Sample inputs

    Concrete worlds, networks and archives on which the statements below are
    instantiated. *)

Definition sample_paths : ProjectPaths :=
  Project_Paths ["resources"; "db"; "tipitaka-translation-data.db.zip"]
                ["resources"; "db"].

Definition release_response (l : list asset) : response :=
  Response 200 "OK" None (Some (Release (Some l))) (Stream [] None) api_url "".

(** A network that answers the release query with the asset list [l] and
    any other URL with [other]. *)
Definition serving (l : list asset) (other : reply) : string → reply :=
  λ url, if decide (url = api_url) then Replied (release_response l) else other.

Definition refused : reply := ConnectionFailed "Connection refused".

Definition unreachable : string → reply := λ _, refused.

Definition empty_world : world := World ∅ [].

Definition sample_url : string := "https://example.org/tipitaka-translation-data.db.zip".

Definition readme_asset : asset := Asset "README.md" "https://example.org/README.md".
Definition zip_asset : asset := Asset asset_name sample_url.
Definition upper_asset : asset :=
  Asset "TIPITAKA-TRANSLATION-DATA.DB.ZIP" "https://example.org/upper".
Definition blank_asset : asset := Asset asset_name "".
Definition second_zip_asset : asset := Asset asset_name "https://example.org/second".

Definition no_body : stream := Stream [] None.

(** What [response.json()] says of a body that is no JSON at all. *)
Definition not_json : string := "Expecting value: line 1 column 1 (char 0)".

Definition forbidden : reply :=
  Replied (Response 403 "Forbidden" None None no_body sample_url not_json).

(** The release query turned down by the API. *)
Definition rate_limited : response :=
  Response 403 "rate limit exceeded" None None no_body api_url not_json.

Definition not_modified : reply :=
  Replied (Response 304 "Not Modified" None None no_body sample_url not_json).

(** An eleven-byte payload that arrives in three chunks and a keep-alive. *)
Definition payload_response : response :=
  Response 200 "OK" (Some (Numeric 11)) None
    (Stream ["PK"; ""; "archive"; "!!"] None) sample_url not_json.

(** The same length announced, and a connection that breaks after two
    chunks. *)
Definition truncated_response : response :=
  Response 200 "OK" (Some (Numeric 11)) None
    (Stream ["PK"; "arch"] (Some "Connection broken")) sample_url not_json.

(** Two responses that do not get as far as the payload: a length that is
    no number, and one of more megabytes than a float can count. *)
Definition garbled_response : response :=
  Response 200 "OK"
    (Some (NotNumeric "invalid literal for int() with base 10: 'abc'")) None
    (Stream ["PK"] None) sample_url not_json.

Definition huge_response : response :=
  Response 200 "OK" (Some (Numeric (10 ^ 400))) None
    (Stream ["PK"] None) sample_url not_json.

(** An archive kept outside the directory it is extracted to. *)
Definition sample_zip_path : path := ["downloads"; "archive.zip"].
Definition sample_dest : path := ["out"].

Definition sample_archive : list ZipInfo :=
  [Zip_Info "a/b.txt" "hello"; Zip_Info "c.txt" "world"].

Definition escape_archive : list ZipInfo :=
  [Zip_Info "../escape.txt" "boo"].

(** A reader that takes everything for an archive with the members [l]. *)
Definition always (l : list ZipInfo) : zip_reader :=
  Zip_Reader (λ _, Some l) (λ _, BadZipFile "File is not a zip file").

(** A reader that knows two archives by their bytes, and finds no
    end-of-central-directory record in anything else. *)
Definition sample_decode : zip_reader :=
  Zip_Reader
    (λ content,
       if decide (content = "PKarchive!!") then Some sample_archive
       else if decide (content = "PKescape") then Some escape_archive
       else None)
    (λ _, BadZipFile "File is not a zip file").

Definition zip_world (content : string) : world :=
  World (<[sample_zip_path := File content]> (<[ ["downloads"] := Dir ]> ∅)) [].





(** A world in which the tarball has been downloaded before. *)
Definition cached_world : world :=
  World (<[tipitaka_translation_db_tarball sample_paths := File "PKarchive!!"]>
           (<[ ["resources"; "db"] := Dir ]> (<[ ["resources"] := Dir ]> ∅))) [].

(** ** Notions used in the statements *)

(** Appending to the event log of a world. *)
Definition logged (w : world) (evs : list event) : world :=
  World (files w) (events w ++ evs).

(** The test of the asset loop. *)
Definition is_zip_asset (a : asset) : Prop := name a = asset_name.

#[local] Instance is_zip_asset_dec a : Decision (is_zip_asset a).
Proof. unfold is_zip_asset. apply _. Defined.

(** The payload that a list of chunks carries. *)
Definition join (l : list string) : string := foldr String.append "" l.

(** The progress updates of [download_loop] for the chunks [l], starting
    from a task that stands at [completed]. *)
Fixpoint updates (total completed : Z) (l : list string) : list event :=
  match l with
  | [] => []
  | chunk :: rest =>
      if decide (chunk = "") then updates total completed rest
      else ProgressUpdate (completed + len chunk) total
             :: updates total (completed + len chunk) rest
  end.

(** The values of [completed] that a stretch of events reports. *)
Definition reported (evs : list event) : list Z :=
  omap (λ ev, match ev with ProgressUpdate c _ => Some c | _ => None end) evs.

(** What [unzip_file] does to the file system. *)
Definition unzip_fs (zip_decode : zip_reader)
    (zip_path destination_dir : path) : FS unit :=
  λ fs,
    if negb (path_exists fs zip_path)
    then (Raise (FileNotFoundError ("Zip file not found: " +:+ path_str zip_path)), fs)
    else (makedirs destination_dir ;;
          zip_ref <- ZipFile zip_decode zip_path ;;
          extractall zip_ref destination_dir) fs.

(** A computation all of whose events satisfy [P]. *)
Definition emits {A} (P : event → Prop) (m : M A) : Prop :=
  ∀ w, ∃ tr, events (snd (m w)) = events w ++ tr ∧ Forall P tr.

Definition is_request (ev : event) : Prop :=
  match ev with HttpGet _ _ _ => True | _ => False end.

Definition is_unzipping (ev : event) : Prop :=
  match ev with PrGreen _ => True | _ => False end.

(** With the tarball missing, the two ways in which [ensure_zip_exists]
    can fail: no usable URL comes back from [download_latest_release], or
    the download of that URL raises. *)
Definition not_found_msgs : list event :=
  [PrInfo "Tipitaka translation zip not found";
   PrInfo "Downloading from GitHub releases..."].

Definition resolution_fails (requests : string → reply) (w : world) : Prop :=
  ∃ o w1, download_latest_release requests (logged w not_found_msgs) = (Ok o, w1)
          ∧ truthy o = false.

Definition fetch_fails (requests : string → reply) (pth : ProjectPaths)
    (w : world) : Prop :=
  ∃ url w1 e w2,
    download_latest_release requests (logged w not_found_msgs) = (Ok (Some url), w1)
    ∧ url ≠ ""
    ∧ download_file requests pth url w1 = (Raise e, w2).

(** [g] has every node of [fs], of the same kind: directories stay
    directories and files stay files, whatever they hold. *)
Definition extends (fs g : gmap path node) : Prop :=
  ∀ p, match fs !! p with
       | None => True
       | Some Dir => g !! p = Some Dir
       | Some (File _) => ∃ c, g !! p = Some (File c)
       end.

(** [fs'] is [fs] with directories added where there was nothing. *)
Definition grown (fs fs' : gmap path node) : Prop :=
  ∀ p, fs' !! p = fs !! p ∨ (fs !! p = None ∧ fs' !! p = Some Dir).

(** What happens to the node at [p] when [member] is extracted below
    [dest], taking the file system from [fs] to [fs'] with outcome [r]:
    nothing, or a directory appears where there was nothing, or the
    member's data is written at the member's target. *)
Definition touched (member : ZipInfo) (dest : path) (r : result unit)
    (fs fs' : gmap path node) (p : path) : Prop :=
  fs' !! p = fs !! p ∨
  (fs !! p = None ∧ fs' !! p = Some Dir) ∨
  (r = Ok tt ∧ is_dir member = false ∧ p = dest ++ arcname member ∧
   fs' !! p = Some (File (data member)) ∧ fs !! p ≠ Some Dir).

(** The two steps of [_extract_member]: the directories above the target
    are made when they are missing, then the target itself is made or
    written. *)
Definition upper (dest : path) (member : ZipInfo) : FS unit :=
  λ fs,
    if negb (bool_decide (dirname (dest ++ arcname member) = []))
       && negb (path_exists fs (dirname (dest ++ arcname member)))
    then makedirs (dirname (dest ++ arcname member)) fs
    else (Ok tt, fs).

Definition place (dest : path) (member : ZipInfo) : FS unit :=
  λ fs,
    if is_dir member
    then if negb (path_isdir fs (dest ++ arcname member))
         then os_mkdir (dest ++ arcname member) fs
         else (Ok tt, fs)
    else write_file (dest ++ arcname member) (data member) fs.



(** The targets of the members that are files. *)
Definition file_targets (dest : path) (members : list ZipInfo) : list path :=
  (λ member, dest ++ arcname member) <$> filter (λ member, is_dir member = false) members.

(** The response announces a body of [total] bytes: [int(...)] of its
    ["content-length"] header, or of 0 when it has none, is [total]. *)
Definition announced (r : response) (total : Z) : Prop :=
  match content_length r with
  | None => total = 0
  | Some (Numeric n) => total = n
  | Some (NotNumeric _) => False
  end.

(** The HTTP requests among a stretch of events. *)
#[local] Instance is_request_dec ev : Decision (is_request ev).
Proof. destruct ev; apply _. Defined.

Definition requests_made (evs : list event) : list event :=
  filter is_request evs.

(** The ways in which the release query can fail, with the exception that
    each raises inside [download_latest_release]. *)
Definition api_failure (requests : string → reply) (e : exn) : Prop :=
  (∃ msg, requests api_url = ConnectionFailed msg ∧ e = RequestException msg) ∨
  (∃ r, requests api_url = Replied r ∧ 400 ≤ status_code r < 600 ∧
        e = HTTPError (status_code r) (http_error_msg r)) ∨
  (∃ r, requests api_url = Replied r ∧ ¬ (400 ≤ status_code r < 600) ∧
        json r = None ∧ e = JSONDecodeError (json_error r)).

(** The members that [extractall] extracts, in order: for every name of
    the archive, the member that [getinfo] finds. *)
Definition resolved (filelist : list ZipInfo) : list ZipInfo :=
  omap (getinfo filelist) (namelist filelist).

(** ** Properties *)

Lemma logged_logged w evs evs' :
  logged (logged w evs) evs' = logged w (evs ++ evs').
Proof. unfold logged. simpl. by rewrite <-app_assoc. Qed.

Lemma emit_logged ev w : emit ev w = (Ok tt, logged w [ev]).
Proof. reflexivity. Qed.

Lemma logged_nil w : logged w [] = w.
Proof. destruct w. unfold logged. simpl. by rewrite app_nil_r. Qed.

Lemma files_logged w evs : files (logged w evs) = files w.
Proof. reflexivity. Qed.

Lemma events_logged w evs : events (logged w evs) = events w ++ evs.
Proof. reflexivity. Qed.

(** *** Running computations *)

Section Laws.
Context {S A B C : Type}.

Lemma bind_ret (a : A) (k : A → ST S B) (s : S) : bind (ret a) k s = k a s.
Proof. reflexivity. Qed.

Lemma bind_raise (e : exn) (k : A → ST S B) (s : S) :
  bind (raise e) k s = (Raise e, s).
Proof. reflexivity. Qed.

Lemma bind_bind (m : ST S A) (f : A → ST S B) (g : B → ST S C) (s : S) :
  bind (bind m f) g s = bind m (λ a, bind (f a) g) s.
Proof. unfold bind. by destruct (m s) as [[a|e] s']. Qed.

Lemma bind_run (m : ST S A) (k : A → ST S B) (s s' : S) (a : A) :
  m s = (Ok a, s') → bind m k s = k a s'.
Proof. unfold bind. by intros ->. Qed.

Lemma bind_run_raise (m : ST S A) (k : A → ST S B) (s s' : S) (e : exn) :
  m s = (Raise e, s') → bind m k s = (Raise e, s').
Proof. unfold bind. by intros ->. Qed.

Lemma try_except_run (m : ST S A) (h : exn → ST S A) (s s' : S) (a : A) :
  m s = (Ok a, s') → try_except m h s = (Ok a, s').
Proof. unfold try_except. by intros ->. Qed.

Lemma try_except_run_raise (m : ST S A) (h : exn → ST S A) (s s' : S) (e : exn) :
  m s = (Raise e, s') → try_except m h s = h e s'.
Proof. unfold try_except. by intros ->. Qed.
End Laws.

Lemma bind_emit {B} (ev : event) (k : unit → M B) (w : world) :
  bind (emit ev) k w = k tt (logged w [ev]).
Proof. reflexivity. Qed.

Lemma bind_get_files {B} (k : gmap path node → M B) (w : world) :
  bind get_files k w = k (files w) w.
Proof. reflexivity. Qed.

Lemma bind_lift_fs {A B : Type} (m : FS A) (k : A → M B) (w : world) (a : A) fs' :
  m (files w) = (Ok a, fs') → bind (lift_fs m) k w = k a (World fs' (events w)).
Proof. unfold bind, lift_fs. by intros ->. Qed.

Lemma bind_lift_fs_raise {A B : Type} (m : FS A) (k : A → M B) (w : world) e fs' :
  m (files w) = (Raise e, fs') →
  bind (lift_fs m) k w = (Raise e, World fs' (events w)).
Proof. unfold bind, lift_fs. by intros ->. Qed.

(** *** The asset loop *)

Lemma scan_assets_head_filter (l : list asset) (d : option string) :
  scan_assets l d =
    match head (filter is_zip_asset l) with
    | Some a => Some (browser_download_url a)
    | None => d
    end.
Proof.
  induction l as [|a l IH]; [done|].
  simpl. rewrite filter_cons. unfold is_zip_asset at 1.
  destruct (decide (name a = asset_name)); simpl; [done|apply IH].
Qed.

Lemma scan_assets_no_match (l : list asset) (d : option string) :
  Forall (λ a, name a ≠ asset_name) l → scan_assets l d = d.
Proof.
  induction 1 as [|a l Ha _ IH]; [done|].
  simpl. by destruct (decide (name a = asset_name)).
Qed.

Lemma filter_singleton_perm (l l' : list asset) (a : asset) :
  filter is_zip_asset l = [a] → l' ≡ₚ l → filter is_zip_asset l' = [a].
Proof.
  intros Hl Hp. apply Permutation_singleton_r.
  rewrite <-Hl. by apply filter_Permutation.
Qed.

Section Resolver.

Variable requests : string → reply.

Lemma requests_get_replied url timeout streamed r w :
  requests url = Replied r →
  requests_get requests url timeout streamed w =
    (Ok r, logged w [HttpGet url timeout streamed]).
Proof. unfold requests_get. rewrite bind_emit. by intros ->. Qed.

Lemma requests_get_failed url timeout streamed msg w :
  requests url = ConnectionFailed msg →
  requests_get requests url timeout streamed w =
    (Raise (RequestException msg), logged w [HttpGet url timeout streamed]).
Proof. unfold requests_get. rewrite bind_emit. by intros ->. Qed.

Lemma raise_for_status_ok r w :
  ¬ (400 ≤ status_code r < 600) → raise_for_status r w = (Ok tt, w).
Proof. unfold raise_for_status. by destruct (decide _). Qed.

Lemma raise_for_status_error r w :
  400 ≤ status_code r < 600 →
  raise_for_status r w =
    (Raise (HTTPError (status_code r) (http_error_msg r)), w).
Proof. unfold raise_for_status. by destruct (decide _). Qed.

(** What [download_latest_release] does once the release query has been
    answered with a decodable body and a status that [raise_for_status]
    lets through. *)
Lemma download_latest_release_replied (r : response) (d : release) (w : world) :
  requests api_url = Replied r →
  ¬ (400 ≤ status_code r < 600) →
  json r = Some d →
  download_latest_release requests w =
    let download_url := scan_assets (default [] (assets d)) None in
    let w' := logged w [PrInfo "Downloading latest release from GitHub...";
                        HttpGet api_url 10 false] in
    if truthy download_url then (Ok download_url, w')
    else (Ok None,
          logged w' [PrError "Error getting latest release: Could not find zip file in latest release"]).
Proof.
  intros Hreq Hst Hjs.
  unfold download_latest_release. rewrite bind_emit. cbv zeta.
  destruct (truthy (scan_assets (default [] (assets d)) None)) eqn:Hurl.
  - rewrite (try_except_run _ _ _
      (logged w [PrInfo "Downloading latest release from GitHub...";
                 HttpGet api_url 10 false])
      (scan_assets (default [] (assets d)) None)); [done|].
    erewrite bind_run by by apply requests_get_replied.
    erewrite bind_run by by apply raise_for_status_ok.
    unfold response_json. rewrite Hjs, bind_ret, Hurl. cbn [negb].
    unfold ret. by rewrite logged_logged.
  - rewrite (try_except_run_raise _ _ _
      (logged w [PrInfo "Downloading latest release from GitHub...";
                 HttpGet api_url 10 false])
      (Exception "Could not find zip file in latest release")).
    { by rewrite bind_emit. }
    erewrite bind_run by by apply requests_get_replied.
    erewrite bind_run by by apply raise_for_status_ok.
    unfold response_json. rewrite Hjs, bind_ret, Hurl. cbn [negb].
    unfold raise. by rewrite logged_logged.
Qed.

(** A failed release query (transport failure, error status, undecodable
    body) is caught by the handler: the function returns [None]. *)
Lemma download_latest_release_network_failure (w : world) :
  (∃ msg, requests api_url = ConnectionFailed msg) ∨
  (∃ r, requests api_url = Replied r ∧
        (400 ≤ status_code r < 600 ∨ json r = None)) →
  fst (download_latest_release requests w) = Ok None.
Proof.
  unfold download_latest_release. rewrite bind_emit.
  intros [[msg Hreq]|[r [Hreq Hr]]].
  { erewrite try_except_run_raise.
    2:{ by erewrite bind_run_raise by by apply requests_get_failed. }
    by rewrite bind_emit. }
  destruct (decide (400 ≤ status_code r < 600)) as [Hst|Hst].
  { erewrite try_except_run_raise.
    2:{ erewrite bind_run by by apply requests_get_replied.
        by erewrite bind_run_raise by by apply raise_for_status_error. }
    by rewrite bind_emit. }
  destruct Hr as [|Hjs]; [done|].
  erewrite try_except_run_raise.
  2:{ erewrite bind_run by by apply requests_get_replied.
      erewrite bind_run by by apply raise_for_status_ok.
      unfold response_json. rewrite Hjs. by rewrite bind_raise. }
  by rewrite bind_emit.
Qed.

(** [download_latest_release] never raises. *)
Lemma download_latest_release_returns (w : world) :
  ∃ o, fst (download_latest_release requests w) = Ok o.
Proof.
  destruct (requests api_url) as [msg|r] eqn:Hreq.
  - exists None. apply download_latest_release_network_failure. eauto.
  - destruct (decide (400 ≤ status_code r < 600)) as [Hst|Hst].
    { exists None. apply download_latest_release_network_failure. eauto. }
    destruct (json r) as [d|] eqn:Hjs.
    + rewrite (download_latest_release_replied r d w Hreq Hst Hjs).
      cbv zeta. destruct (truthy _); eauto.
    + exists None. apply download_latest_release_network_failure. eauto 6.
Qed.

End Resolver.

(** *** Release resolution: [download_latest_release] *)

(** C3 (amended).  For every release whose asset list has no asset named
    exactly ["tipitaka-translation-data.db.zip"], [download_latest_release]
    does not fail with an error of its own kind: the generic exception it
    raises is caught by its own handler, which logs
    "Error getting latest release: Could not find zip file in latest release"
    and returns [None] -- the very value that is returned after a failed
    request (transport failure, error status, undecodable body). *)
Theorem download_latest_release_not_found
    (requests : string → reply) (r : response) (d : release) (w : world) :
  requests api_url = Replied r →
  ¬ (400 ≤ status_code r < 600) →
  json r = Some d →
  Forall (λ a, name a ≠ asset_name) (default [] (assets d)) →
  download_latest_release requests w =
    (Ok None,
     logged w [PrInfo "Downloading latest release from GitHub...";
               HttpGet api_url 10 false;
               PrError "Error getting latest release: Could not find zip file in latest release"])
  ∧ ∀ (requests' : string → reply) (w' : world),
      ((∃ msg, requests' api_url = ConnectionFailed msg) ∨
       (∃ r', requests' api_url = Replied r' ∧
              (400 ≤ status_code r' < 600 ∨ json r' = None))) →
      fst (download_latest_release requests' w') = Ok None.
Proof.
  intros Hreq Hst Hjs Hno. split.
  - rewrite (download_latest_release_replied requests r d w Hreq Hst Hjs).
    cbv zeta. rewrite (scan_assets_no_match _ _ Hno). cbn [truthy].
    by rewrite logged_logged.
  - intros requests' w'. apply download_latest_release_network_failure.
Qed.

Lemma download_latest_release_not_found_witness :
  download_latest_release (serving [readme_asset; upper_asset] refused) empty_world =
    (Ok None,
     logged empty_world
       [PrInfo "Downloading latest release from GitHub...";
        HttpGet api_url 10 false;
        PrError "Error getting latest release: Could not find zip file in latest release"]).
Proof.
  refine (proj1 (download_latest_release_not_found
                   (serving [readme_asset; upper_asset] refused)
                   (release_response [readme_asset; upper_asset])
                   (Release (Some [readme_asset; upper_asset]))
                   empty_world _ _ _ _)).
  - reflexivity.
  - simpl. lia.
  - reflexivity.
  - simpl. repeat constructor; by vm_compute.
Defined.

(** C3 as stated fails: with a release that has no matching asset the
    function raises nothing and returns [None], exactly as it does when the
    network is unreachable, so the caller cannot tell the two apart. *)
Lemma download_latest_release_not_found_same_as_network :
  Forall (λ a, name a ≠ asset_name) [readme_asset] ∧
  fst (download_latest_release (serving [readme_asset] refused) empty_world)
    = Ok None ∧
  fst (download_latest_release unreachable empty_world)
    = fst (download_latest_release (serving [readme_asset] refused) empty_world).
Proof.
  split; [repeat constructor; by vm_compute|].
  split; by vm_compute.
Qed.

(** C4 (amended).  For every release whose asset list has exactly one
    asset whose name equals ["tipitaka-translation-data.db.zip"] exactly
    (same case), [download_latest_release] returns that asset's
    [browser_download_url] when it is not the empty string, and [None] when
    it is; the result is the same for every permutation of the list. *)
Theorem download_latest_release_unique_match
    (requests : string → reply) (r : response) (l l' : list asset)
    (a : asset) (w : world) :
  filter is_zip_asset l = [a] →
  l' ≡ₚ l →
  requests api_url = Replied r →
  ¬ (400 ≤ status_code r < 600) →
  json r = Some (Release (Some l')) →
  fst (download_latest_release requests w) =
    Ok (if decide (browser_download_url a = "") then None
        else Some (browser_download_url a)).
Proof.
  intros Hl Hp Hreq Hst Hjs.
  rewrite (download_latest_release_replied requests r _ w Hreq Hst Hjs).
  cbv zeta. simpl default.
  rewrite scan_assets_head_filter, (filter_singleton_perm l l' a Hl Hp).
  cbn [head truthy].
  by destruct (decide (browser_download_url a = "")).
Qed.

Lemma download_latest_release_unique_match_witness :
  fst (download_latest_release
         (serving [zip_asset; readme_asset; upper_asset] refused) empty_world)
    = Ok (Some sample_url).
Proof.
  refine (download_latest_release_unique_match
            (serving [zip_asset; readme_asset; upper_asset] refused)
            (release_response [zip_asset; readme_asset; upper_asset])
            [upper_asset; readme_asset; zip_asset]
            [zip_asset; readme_asset; upper_asset]
            zip_asset empty_world _ _ _ _ _).
  - by vm_compute.
  - exact (reverse_Permutation [upper_asset; readme_asset; zip_asset]).
  - reflexivity.
  - simpl. lia.
  - reflexivity.
Defined.

(** C4 as stated fails when the single matching asset carries an empty
    [browser_download_url]: the function returns [None], not that URL. *)
Lemma download_latest_release_unique_match_blank :
  filter is_zip_asset [readme_asset; blank_asset] = [blank_asset] ∧
  fst (download_latest_release
         (serving [readme_asset; blank_asset] refused) empty_world)
    = Ok None ∧
  fst (download_latest_release
         (serving [readme_asset; blank_asset] refused) empty_world)
    ≠ Ok (Some (browser_download_url blank_asset)).
Proof. split; [by vm_compute|]. split; by vm_compute. Qed.

(** C10 (amended).  Whatever the number of assets named
    ["tipitaka-translation-data.db.zip"], the scan stops at the first of
    them in list order: [download_latest_release] returns its
    [browser_download_url] when that is not the empty string, and [None]
    when it is, whatever assets follow. *)
Theorem download_latest_release_first_match
    (requests : string → reply) (r : response) (l : list asset)
    (a : asset) (w : world) :
  head (filter is_zip_asset l) = Some a →
  requests api_url = Replied r →
  ¬ (400 ≤ status_code r < 600) →
  json r = Some (Release (Some l)) →
  fst (download_latest_release requests w) =
    Ok (if decide (browser_download_url a = "") then None
        else Some (browser_download_url a)).
Proof.
  intros Hl Hreq Hst Hjs.
  rewrite (download_latest_release_replied requests r _ w Hreq Hst Hjs).
  cbv zeta. simpl default.
  rewrite scan_assets_head_filter, Hl. cbn [truthy].
  by destruct (decide (browser_download_url a = "")).
Qed.

Lemma download_latest_release_first_match_witness :
  fst (download_latest_release
         (serving [readme_asset; second_zip_asset; zip_asset] refused)
         empty_world)
    = Ok (Some "https://example.org/second").
Proof.
  refine (download_latest_release_first_match
            (serving [readme_asset; second_zip_asset; zip_asset] refused)
            (release_response [readme_asset; second_zip_asset; zip_asset])
            [readme_asset; second_zip_asset; zip_asset]
            second_zip_asset empty_world _ _ _ _).
  - by vm_compute.
  - reflexivity.
  - simpl. lia.
  - reflexivity.
Defined.

(** C10 as stated fails when the first matching asset carries an empty
    [browser_download_url]: the function returns [None], although a second
    matching asset with a URL follows. *)
Lemma download_latest_release_first_match_blank :
  head (filter is_zip_asset [blank_asset; second_zip_asset]) = Some blank_asset ∧
  fst (download_latest_release
         (serving [blank_asset; second_zip_asset] refused) empty_world)
    = Ok None ∧
  fst (download_latest_release
         (serving [blank_asset; second_zip_asset] refused) empty_world)
    ≠ Ok (Some (browser_download_url blank_asset)).
Proof. split; [by vm_compute|]. split; by vm_compute. Qed.

(** *** Strings *)

Lemma append_nil_r (s : string) : s +:+ "" = s.
Proof.
  induction s as [|c s IH]; [done|].
  change (String c (s +:+ "") = String c s). by rewrite IH.
Qed.

Lemma append_assoc (s1 s2 s3 : string) : (s1 +:+ s2) +:+ s3 = s1 +:+ (s2 +:+ s3).
Proof.
  induction s1 as [|c s1 IH]; [done|].
  change (String c ((s1 +:+ s2) +:+ s3) = String c (s1 +:+ (s2 +:+ s3))).
  by rewrite IH.
Qed.



(** *** The download: [download_file] *)



Section Fetch.

Variable requests : string → reply.
Variable pth : ProjectPaths.

Lemma download_loop_run (f : path) (total : Z) (l : list string)
    (broken : option string) :
  ∀ (completed : Z) (w : world) (c : string),
    files w !! f = Some (File c) →
    download_loop f total completed l broken w =
      (match broken with
       | None => Ok tt
       | Some msg => Raise (RequestException msg)
       end,
       World (<[f := File (c +:+ join l)]> (files w))
             (events w ++ updates total completed l)).
Proof.
  induction l as [|chunk rest IH]; intros completed w c Hf.
  - cbn [download_loop join foldr updates].
    rewrite append_nil_r, app_nil_r, (insert_id _ _ _ Hf).
    destruct w; by destruct broken.
  - cbn [download_loop join foldr updates]. fold (join rest).
    destruct (decide (chunk = "")) as [->|_]; [by apply IH|].
    erewrite bind_lift_fs by (unfold f_write; by rewrite Hf).
    rewrite bind_emit.
    erewrite IH by (simpl; apply lookup_insert_eq).
    simpl. by rewrite insert_insert_eq, append_assoc, <-app_assoc.
Qed.

(** A request that fails in transit is re-raised after being logged; no
    file system call has been made by then. *)
Lemma download_file_connection_failed (url msg : string) (w : world) :
  requests url = ConnectionFailed msg →
  download_file requests pth url w =
    (Raise (RequestException msg),
     logged w [HttpGet url 60 true;
               PrError ("Error downloading file: " +:+ msg)]).
Proof.
  intros Hreq. unfold download_file.
  erewrite try_except_run_raise.
  2:{ by erewrite bind_run_raise by by apply requests_get_failed. }
  rewrite bind_emit. unfold raise. by rewrite logged_logged.
Qed.

(** So is a response with a client or server error status. *)
Lemma download_file_http_error (url : string) (r : response) (w : world) :
  requests url = Replied r →
  400 ≤ status_code r < 600 →
  download_file requests pth url w =
    (Raise (HTTPError (status_code r) (http_error_msg r)),
     logged w [HttpGet url 60 true;
               PrError ("Error downloading file: " +:+ http_error_msg r)]).
Proof.
  intros Hreq Hst. unfold download_file.
  erewrite try_except_run_raise.
  2:{ erewrite bind_run by by apply requests_get_replied.
      by erewrite bind_run_raise by by apply raise_for_status_error. }
  rewrite bind_emit. unfold raise. by rewrite logged_logged.
Qed.

Lemma int_header_announced (r : response) (total : Z) (w : world) :
  announced r total → int_header (content_length r) w = (Ok total, w).
Proof.
  unfold announced, int_header.
  destruct (content_length r) as [[n|msg]|]; [by intros ->|done|by intros ->].
Qed.

(** A ["content-length"] header that [int] does not take makes the
    download fail before any file system call. *)
Lemma download_file_bad_header (url msg : string) (r : response) (w : world) :
  requests url = Replied r →
  ¬ (400 ≤ status_code r < 600) →
  content_length r = Some (NotNumeric msg) →
  download_file requests pth url w =
    (Raise (ValueError msg),
     logged w [HttpGet url 60 true;
               PrError ("Error downloading file: " +:+ msg)]).
Proof.
  intros Hreq Hst Hcl. unfold download_file.
  erewrite try_except_run_raise.
  2:{ erewrite bind_run by by apply requests_get_replied.
      erewrite bind_run by by apply raise_for_status_ok.
      rewrite Hcl. cbn [int_header]. by rewrite bind_raise. }
  rewrite bind_emit. unfold raise. by rewrite logged_logged.
Qed.

(** So does a length whose count of megabytes is too large for a float. *)
Lemma download_file_overflow (url : string) (r : response) (total : Z)
    (w : world) :
  requests url = Replied r →
  ¬ (400 ≤ status_code r < 600) →
  announced r total →
  float_overflow total = true →
  download_file requests pth url w =
    (Raise (OverflowError "integer division result too large for a float"),
     logged w [HttpGet url 60 true;
               PrError ("Error downloading file: " +:+
                        "integer division result too large for a float")]).
Proof.
  intros Hreq Hst Hcl Hov. unfold download_file.
  erewrite try_except_run_raise.
  2:{ erewrite bind_run by by apply requests_get_replied.
      erewrite bind_run by by apply raise_for_status_ok.
      erewrite bind_run by by apply int_header_announced.
      rewrite Hov. cbv iota. by rewrite bind_raise. }
  rewrite bind_emit. unfold raise. by rewrite logged_logged.
Qed.


End Fetch.

(** C5 (amended).  For every fetch in which [requests.get] raises a
    transport failure, or the response carries a client or server error
    status (400 to 599, the statuses [raise_for_status] rejects),
    [download_file] fails with that network exception and the file system is
    left exactly as it was: the failure is raised before the directory is
    made and before the tarball is opened. *)
Theorem download_file_network_failure
    (requests : string → reply) (pth : ProjectPaths) (url : string) (w : world) :
  (∃ msg, requests url = ConnectionFailed msg) ∨
  (∃ r, requests url = Replied r ∧ 400 ≤ status_code r < 600) →
  ∃ (e : exn) (w' : world),
    download_file requests pth url w = (Raise e, w') ∧
    is_network_error e = true ∧
    files w' = files w.
Proof.
  intros [[msg Hreq]|[r [Hreq Hst]]].
  - eexists _, _. split; [by apply download_file_connection_failed|done].
  - eexists _, _. split; [by apply download_file_http_error|done].
Qed.

Lemma download_file_network_failure_witness :
  ∃ (e : exn) (w' : world),
    download_file (serving [zip_asset] forbidden) sample_paths sample_url empty_world
      = (Raise e, w') ∧
    is_network_error e = true ∧
    files w' = files empty_world.
Proof.
  apply (download_file_network_failure
           (serving [zip_asset] forbidden) sample_paths sample_url empty_world).
  right. eexists. split; [reflexivity|]. simpl. lia.
Defined.

(** C5 as stated fails for a status that is neither 2xx nor an error
    class: on a 304 answer [raise_for_status] lets the response through and
    the tarball, absent before, is created. *)
Lemma download_file_not_modified_creates_tarball :
  serving [zip_asset] not_modified sample_url
    = Replied (Response 304 "Not Modified" None None no_body sample_url not_json) ∧
  fst (download_file (serving [zip_asset] not_modified) sample_paths sample_url
         empty_world) = Ok tt ∧
  files empty_world !! tipitaka_translation_db_tarball sample_paths = None ∧
  files (snd (download_file (serving [zip_asset] not_modified) sample_paths
                sample_url empty_world))
    !! tipitaka_translation_db_tarball sample_paths = Some (File "").
Proof. repeat split; by vm_compute. Qed.




(** The updates of the sample payload, spelt out. *)
Example sample_progress_reports :
  reported (events (snd (download_file
              (serving [zip_asset] (Replied payload_response)) sample_paths
              sample_url empty_world))) = [2; 9; 11].
Proof. by vm_compute. Qed.

(** *** Events of a computation *)

Section Emits.
Context {A B : Type} (P : event → Prop).

Lemma emits_ret (a : A) : emits P (ret a).
Proof. intros w. exists []. by rewrite app_nil_r. Qed.

Lemma emits_raise (e : exn) : emits P (raise (A:=A) e).
Proof. intros w. exists []. by rewrite app_nil_r. Qed.

Lemma emits_lift_fs (m : FS A) : emits P (lift_fs m).
Proof.
  intros w. exists []. unfold lift_fs.
  destruct (m (files w)). simpl. by rewrite app_nil_r.
Qed.

Lemma emits_bind (m : M A) (k : A → M B) :
  emits P m → (∀ a, emits P (k a)) → emits P (bind m k).
Proof.
  intros Hm Hk w. unfold bind.
  destruct (Hm w) as (tr & Htr & HP).
  destruct (m w) as [[a|e] w1]; simpl in Htr.
  - destruct (Hk a w1) as (tr' & Htr' & HP').
    exists (tr ++ tr'). rewrite Htr', Htr, <-app_assoc.
    split; [done|by apply Forall_app].
  - by exists tr.
Qed.

Lemma emits_try_except (m : M A) (h : exn → M A) :
  emits P m → (∀ e, emits P (h e)) → emits P (try_except m h).
Proof.
  intros Hm Hh w. unfold try_except.
  destruct (Hm w) as (tr & Htr & HP).
  destruct (m w) as [[a|e] w1]; simpl in Htr.
  - by exists tr.
  - destruct (Hh e w1) as (tr' & Htr' & HP').
    exists (tr ++ tr'). rewrite Htr', Htr, <-app_assoc.
    split; [done|by apply Forall_app].
Qed.
End Emits.

Lemma emits_emit (P : event → Prop) (ev : event) : P ev → emits P (emit ev).
Proof. intros HP w. exists [ev]. split; [done|by constructor]. Qed.

Lemma emits_get_files (P : event → Prop) : emits P get_files.
Proof. intros w. exists []. by rewrite app_nil_r. Qed.

Create HintDb emits.
#[local] Hint Resolve emits_ret emits_raise emits_lift_fs emits_get_files : emits.
#[local] Hint Extern 1 (emits _ (emit _)) => apply emits_emit; exact I : emits.
#[local] Hint Extern 2 (emits _ (bind _ _)) => apply emits_bind; [|intros ?] : emits.
#[local] Hint Extern 2 (emits _ (try_except _ _)) =>
  apply emits_try_except; [|intros ?] : emits.
#[local] Hint Extern 3 (emits _ (if ?b then _ else _)) => destruct b : emits.
#[local] Hint Extern 3 (emits _ (match ?x with _ => _ end)) => destruct x : emits.

(** *** The extraction wrapper: [unzip_file] *)

Section Unzip.

Variable zip_decode : zip_reader.

(** [unzip_file] announces itself, does to the file system what
    [unzip_fs] does, and says "ok" when nothing was raised. *)
Lemma unzip_file_run (zip_path destination_dir : path) (w : world) :
  unzip_file zip_decode zip_path destination_dir w =
    match unzip_fs zip_decode zip_path destination_dir (files w) with
    | (Ok _, fs') =>
        (Ok tt, World fs' (events w ++ [PrGreen ("unzipping " +:+ path_name zip_path);
                                        PrYes "ok"]))
    | (Raise e, fs') =>
        (Raise e, World fs' (events w ++ [PrGreen ("unzipping " +:+ path_name zip_path)]))
    end.
Proof.
  unfold unzip_file, unzip_fs. rewrite bind_emit, bind_get_files.
  cbn [files logged].
  destruct (path_exists (files w) zip_path); cbn [negb]; [|done].
  unfold bind at 4.
  destruct (makedirs destination_dir (files w)) as [[[]|e] fs1] eqn:Hmk.
  2:{ by erewrite bind_lift_fs_raise by exact Hmk. }
  erewrite bind_lift_fs by exact Hmk.
  unfold bind at 3.
  destruct (ZipFile zip_decode zip_path fs1) as [[zip_ref|e] fs2] eqn:Hzf.
  2:{ by erewrite bind_lift_fs_raise by exact Hzf. }
  erewrite bind_lift_fs by exact Hzf.
  destruct (extractall zip_ref destination_dir fs2) as [[[]|e] fs3] eqn:Hex.
  2:{ by erewrite bind_lift_fs_raise by exact Hex. }
  erewrite bind_lift_fs by exact Hex.
  rewrite emit_logged. unfold logged. simpl. by rewrite <-app_assoc.
Qed.

Lemma unzip_file_files (zip_path destination_dir : path) (w : world) :
  files (snd (unzip_file zip_decode zip_path destination_dir w)) =
  snd (unzip_fs zip_decode zip_path destination_dir (files w)).
Proof.
  rewrite unzip_file_run.
  by destruct (unzip_fs _ _ _ _) as [[[]|e] fs'].
Qed.

Lemma unzip_file_no_request (zip_path destination_dir : path) :
  emits (λ ev, ¬ is_request ev) (unzip_file zip_decode zip_path destination_dir).
Proof.
  intros w. rewrite unzip_file_run.
  destruct (unzip_fs _ _ _ _) as [[[]|e] fs']; simpl;
    eexists; (split; [reflexivity|]); repeat constructor; by intros [].
Qed.

End Unzip.

(** *** The pipeline: [ensure_zip_exists] and [main] *)

Section Pipeline.

Variable requests : string → reply.
Variable zip_decode : zip_reader.
Variable pth : ProjectPaths.

Local Abbreviation tarball := (tipitaka_translation_db_tarball pth).
Local Abbreviation db_dir := (tipitaka_translation_db_dir pth).

Lemma ensure_zip_exists_hit (w : world) :
  path_exists (files w) tarball = true →
  ensure_zip_exists requests pth w = (Ok tt, w).
Proof.
  intros Hex. unfold ensure_zip_exists. rewrite bind_get_files.
  fold tarball. by rewrite Hex.
Qed.

Lemma ensure_zip_exists_miss (w : world) :
  path_exists (files w) tarball = false →
  ensure_zip_exists requests pth w =
    match download_latest_release requests (logged w not_found_msgs) with
    | (Ok download_url, w1) =>
        if truthy download_url
        then download_file requests pth (default "" download_url) w1
        else (Raise (Exception "Failed to get download URL"), w1)
    | (Raise e, w1) => (Raise e, w1)
    end.
Proof.
  intros Hex. unfold ensure_zip_exists. rewrite bind_get_files.
  fold tarball. rewrite Hex. cbn [negb].
  rewrite !bind_emit, logged_logged. unfold bind.
  destruct (download_latest_release _ _) as [[o|e] w1]; [|done].
  by destruct (truthy o).
Qed.

Lemma main_run (w : world) :
  main requests zip_decode pth w =
    match pipeline requests zip_decode pth
            (logged w [PrTic; PrTitle "unzip tipiṭaka translations db"]) with
    | (Ok _, w1) => (Ok tt, logged w1 [PrToc])
    | (Raise e, w1) =>
        (Ok tt, logged w1 [PrError "An error occurred during extraction";
                           PrError (str e); PrToc])
    end.
Proof.
  unfold main. rewrite !bind_emit, logged_logged. unfold bind, try_except.
  destruct (pipeline _ _ _ _) as [[[]|e] w1]; [done|].
  rewrite !emit_logged. by rewrite !logged_logged.
Qed.

Lemma pipeline_run (w : world) :
  pipeline requests zip_decode pth w =
    match ensure_zip_exists requests pth w with
    | (Ok _, w1) => unzip_file zip_decode tarball db_dir w1
    | (Raise e, w1) => (Raise e, w1)
    end.
Proof. reflexivity. Qed.

(** The download writes the tarball before it reports success. *)
Lemma download_file_ok_tarball (url : string) (w w' : world) :
  download_file requests pth url w = (Ok tt, w') →
  path_exists (files w') tarball = true.
Proof.
  destruct (requests url) as [msg|r] eqn:Hreq.
  { unfold download_file, try_except, requests_get.
    rewrite bind_bind, bind_emit, Hreq, bind_raise, bind_emit. by unfold raise. }
  destruct (decide (400 ≤ status_code r < 600)) as [Hst|Hst].
  { by rewrite (download_file_http_error requests pth url r w Hreq Hst). }
  assert ((∃ msg, content_length r = Some (NotNumeric msg)) ∨
          (∃ total, announced r total)) as [[msg Hcl]|[total Hcl]].
  { unfold announced.
    destruct (content_length r) as [[n|msg]|]; [right|left|right]; by eexists. }
  { by rewrite (download_file_bad_header requests pth url msg r w Hreq Hst Hcl). }
  destruct (float_overflow total) eqn:Hov.
  { by rewrite (download_file_overflow requests pth url r total w Hreq Hst Hcl Hov). }
  unfold download_file, try_except.
  erewrite bind_run by by apply requests_get_replied.
  erewrite bind_run by by apply raise_for_status_ok.
  erewrite bind_run by by apply int_header_announced.
  rewrite Hov. cbv iota. rewrite bind_ret, bind_emit.
  destruct (makedirs (tipitaka_translation_db_dir pth)
              (files (logged (logged w [HttpGet url 60 true])
                 [PrInfoDownloading total chunk_size])))
    as [[[]|e] fs1] eqn:Hmk.
  2:{ erewrite bind_lift_fs_raise by exact Hmk.
      rewrite bind_emit. by unfold raise. }
  erewrite bind_lift_fs by exact Hmk.
  fold tarball.
  destruct (write_file tarball "" fs1) as [[[]|e] fs2] eqn:Hwr.
  2:{ erewrite bind_lift_fs_raise by exact Hwr.
      rewrite bind_emit. by unfold raise. }
  erewrite bind_lift_fs by exact Hwr.
  assert (fs2 = <[tarball := File ""]> fs1) as ->.
  { unfold write_file in Hwr.
    destruct (node_at fs1 tarball) as [[]|];
      destruct (node_at fs1 (dirname tarball)) as [[]|]; congruence. }
  rewrite bind_emit. unfold bind at 1.
  erewrite download_loop_run by (simpl; apply lookup_insert_eq).
  destruct (broken (iter_content r)) as [msg|].
  { rewrite bind_emit. by unfold raise. }
  rewrite emit_logged. intros [= <-]. cbn [files logged].
  unfold path_exists, node_at.
  assert (tarball ≠ []) as Hne.
  { intros Heq. unfold write_file in Hwr. rewrite Heq in Hwr. done. }
  destruct tarball; [done|]. by rewrite lookup_insert_eq.
Qed.

(** When [ensure_zip_exists] returns, the tarball is there. *)
Lemma ensure_zip_exists_ok_tarball (w w' : world) :
  ensure_zip_exists requests pth w = (Ok tt, w') →
  path_exists (files w') tarball = true.
Proof.
  destruct (path_exists (files w) tarball) eqn:Hex.
  - rewrite ensure_zip_exists_hit by done. by intros [= <-].
  - rewrite ensure_zip_exists_miss by done.
    destruct (download_latest_release _ _) as [[o|e] w1]; [|done].
    destruct (truthy o); [|done]. apply download_file_ok_tarball.
Qed.

Lemma download_loop_quiet (f : path) (total : Z) (l : list string)
    (br : option string) (completed : Z) :
  emits (λ ev, ¬ is_unzipping ev) (download_loop f total completed l br).
Proof.
  revert completed. induction l as [|chunk rest IH]; intros completed; simpl.
  - destruct br; auto with emits.
  - destruct (decide (chunk = "")); [apply IH|].
    apply emits_bind; [auto with emits|intros _].
    apply emits_bind; [|intros _; apply IH].
    apply emits_emit. by intros [].
Qed.

(** Nothing that [ensure_zip_exists] does announces an extraction. *)
Lemma ensure_zip_exists_quiet :
  emits (λ ev, ¬ is_unzipping ev) (ensure_zip_exists requests pth).
Proof.
  assert (∀ ev, (match ev with PrGreen _ => False | _ => True end) →
                emits (λ ev, ¬ is_unzipping ev) (emit ev)) as Hemit.
  { intros ev Hev. apply emits_emit. destruct ev; first [done|by intros []]. }
  unfold ensure_zip_exists, download_latest_release, download_file,
    requests_get, raise_for_status, response_json, int_header.
  repeat first
    [ apply download_loop_quiet
    | apply Hemit; exact I
    | apply emits_ret | apply emits_raise | apply emits_lift_fs
    | apply emits_get_files
    | apply emits_bind; [|intros ?]
    | apply emits_try_except; [|intros ?]
    | match goal with
      | |- emits _ (if ?b then _ else _) => destruct b
      | |- emits _ (match ?x with _ => _ end) => destruct x
      end
    | progress cbv zeta ].
Qed.

End Pipeline.

(** C2.  For every run that starts with the tarball already present,
    [ensure_zip_exists] returns at once and leaves the world untouched --
    neither [download_latest_release] nor the download runs, so the run
    makes no HTTP request at all -- and the pipeline is the extraction
    alone, which is announced in the log. *)
Theorem main_cached
    (requests : string → reply) (zip_decode : zip_reader)
    (pth : ProjectPaths) (w : world) :
  path_exists (files w) (tipitaka_translation_db_tarball pth) = true →
  ensure_zip_exists requests pth w = (Ok tt, w) ∧
  pipeline requests zip_decode pth w =
    unzip_file zip_decode (tipitaka_translation_db_tarball pth)
      (tipitaka_translation_db_dir pth) w ∧
  ∃ tr, events (snd (main requests zip_decode pth w)) = events w ++ tr ∧
        Forall (λ ev, ¬ is_request ev) tr ∧
        PrGreen ("unzipping " +:+ path_name (tipitaka_translation_db_tarball pth)) ∈ tr.
Proof.
  intros Hex. split; [by apply ensure_zip_exists_hit|].
  split.
  { rewrite pipeline_run. by rewrite ensure_zip_exists_hit. }
  rewrite main_run, pipeline_run, ensure_zip_exists_hit by done.
  rewrite unzip_file_run. cbn [files logged].
  destruct (unzip_fs _ _ _ _) as [[[]|e] fs']; cbn [snd events logged];
    rewrite <-!app_assoc; cbn [app];
    (eexists; split; [reflexivity|]); (split; [|set_solver]);
    repeat constructor; by intros [].
Qed.

(** C9.  For every run that starts without the tarball and in which the
    resolution or the fetch fails, the [try] body of [main] raises before
    [unzip_file] is reached: [main] reports the error and nothing in its
    log announces an extraction.  And whenever [ensure_zip_exists] returns,
    so that the pipeline goes on to [unzip_file], the tarball exists. *)
Theorem main_failed_without_extraction
    (requests : string → reply) (zip_decode : zip_reader)
    (pth : ProjectPaths) (w : world) :
  path_exists (files w) (tipitaka_translation_db_tarball pth) = false →
  resolution_fails requests (logged w [PrTic; PrTitle "unzip tipiṭaka translations db"]) ∨
  fetch_fails requests pth (logged w [PrTic; PrTitle "unzip tipiṭaka translations db"]) →
  (∃ (e : exn) (w1 : world),
     pipeline requests zip_decode pth
       (logged w [PrTic; PrTitle "unzip tipiṭaka translations db"]) = (Raise e, w1) ∧
     main requests zip_decode pth w =
       (Ok tt, logged w1 [PrError "An error occurred during extraction";
                          PrError (str e); PrToc]) ∧
     ∃ tr, events (snd (main requests zip_decode pth w)) = events w ++ tr ∧
           Forall (λ ev, ¬ is_unzipping ev) tr) ∧
  (∀ w' w1' : world,
     ensure_zip_exists requests pth w' = (Ok tt, w1') →
     path_exists (files w1') (tipitaka_translation_db_tarball pth) = true ∧
     pipeline requests zip_decode pth w' =
       unzip_file zip_decode (tipitaka_translation_db_tarball pth)
         (tipitaka_translation_db_dir pth) w1').
Proof.
  intros Hex Hfail. split.
  - set (w0 := logged w [PrTic; PrTitle "unzip tipiṭaka translations db"]) in *.
    assert (∃ e w1, ensure_zip_exists requests pth w0 = (Raise e, w1))
      as (e & w1 & Hens).
    { rewrite ensure_zip_exists_miss by done.
      destruct Hfail as [(o & w1 & -> & ->)|(url & w1 & e & w2 & -> & Hurl & Hdl)].
      - eauto.
      - cbn [truthy default]. destruct (decide (url = "")); [done|eauto]. }
    exists e, w1. rewrite main_run. fold w0.
    rewrite pipeline_run, Hens. split; [done|]. split; [done|].
    destruct (ensure_zip_exists_quiet requests pth w0) as (tr & Htr & Hq).
    rewrite Hens in Htr. cbn [snd events logged] in *. rewrite Htr.
    exists ([PrTic; PrTitle "unzip tipiṭaka translations db"] ++ tr ++
            [PrError "An error occurred during extraction"; PrError (str e); PrToc]).
    unfold w0. cbn [events logged]. rewrite <-!app_assoc. split; [done|].
    apply Forall_app; split; [repeat constructor; by intros []|].
    apply Forall_app; split; [exact Hq|repeat constructor; by intros []].
  - intros w' w1' Hens. split.
    + by eapply ensure_zip_exists_ok_tarball.
    + by rewrite pipeline_run, Hens.
Qed.

(** *** The file system calls *)

Lemma extends_refl (fs : gmap path node) : extends fs fs.
Proof. intros p. destruct (fs !! p) as [[c|]|]; eauto. Qed.

Lemma extends_trans (fs1 fs2 fs3 : gmap path node) :
  extends fs1 fs2 → extends fs2 fs3 → extends fs1 fs3.
Proof.
  intros H12 H23 p. specialize (H12 p). specialize (H23 p).
  destruct (fs1 !! p) as [[c|]|]; [|by rewrite H12 in H23|done].
  destruct H12 as [c' Hc']. by rewrite Hc' in H23.
Qed.

Lemma extends_dir (fs g : gmap path node) (p : path) :
  extends fs g → node_at fs p = Some Dir → node_at g p = Some Dir.
Proof.
  intros H. destruct p as [|x p]; [done|]. simpl. intros Hp.
  specialize (H (x :: p)). by rewrite Hp in H.
Qed.

Lemma extends_file (fs g : gmap path node) (p : path) (c : string) :
  extends fs g → node_at fs p = Some (File c) → ∃ c', node_at g p = Some (File c').
Proof.
  intros H. destruct p as [|x p]; [done|]. simpl. intros Hp.
  specialize (H (x :: p)). by rewrite Hp in H.
Qed.

Lemma extends_exists (fs g : gmap path node) (p : path) :
  extends fs g → path_exists fs p = true → path_exists g p = true.
Proof.
  intros H. unfold path_exists.
  destruct (node_at fs p) as [[c|]|] eqn:Hp; [| |done]; intros _.
  - by destruct (extends_file fs g p c H Hp) as [c' ->].
  - by rewrite (extends_dir fs g p H Hp).
Qed.

Lemma extends_insert_dir (fs : gmap path node) (p : path) :
  fs !! p = None → extends fs (<[p := Dir]> fs).
Proof.
  intros Hp q. destruct (decide (p = q)) as [<-|Hne]; [by rewrite Hp|].
  rewrite lookup_insert_ne by done. destruct (fs !! q) as [[c|]|]; eauto.
Qed.


(** [makedirs] changes nothing that exists: all it does is to put
    directories where there was nothing. *)
Lemma makedirs_from_frame (rest : list string) :
  ∀ (base : path) (fs fs' : gmap path node) (r : result unit),
    makedirs_from base rest fs = (r, fs') →
    ∀ p, fs' !! p = fs !! p ∨ (fs !! p = None ∧ fs' !! p = Some Dir).
Proof.
  induction rest as [|c rest IH]; intros base fs fs' r Hrun p.
  { injection Hrun as _ <-. by left. }
  simpl in Hrun.
  destruct (fs !! (base ++ [c])) as [[content|]|] eqn:Hq.
  - injection Hrun as _ <-. by left.
  - by eapply IH.
  - destruct (IH _ _ _ _ Hrun p) as [Hp|[Hp Hp']].
    + destruct (decide (base ++ [c] = p)) as [<-|Hne].
      * rewrite lookup_insert_eq in Hp. right. by rewrite Hq.
      * rewrite lookup_insert_ne in Hp by done. by left.
    + destruct (decide (base ++ [c] = p)) as [<-|Hne].
      * by rewrite lookup_insert_eq in Hp.
      * rewrite lookup_insert_ne in Hp by done. by right.
Qed.

Lemma makedirs_from_keeps (base : path) (rest : list string)
    (fs fs' : gmap path node) (r : result unit) (p : path) (n : node) :
  makedirs_from base rest fs = (r, fs') → fs !! p = Some n → fs' !! p = Some n.
Proof.
  intros Hrun Hp.
  destruct (makedirs_from_frame rest base fs fs' r Hrun p) as [->|[Hn _]];
    congruence.
Qed.

Lemma makedirs_from_extends (base : path) (rest : list string)
    (fs fs' : gmap path node) (r : result unit) :
  makedirs_from base rest fs = (r, fs') → extends fs fs'.
Proof.
  intros Hrun p. destruct (fs !! p) as [n|] eqn:Hp; [|done].
  rewrite (makedirs_from_keeps _ _ _ _ _ _ _ Hrun Hp). destruct n; eauto.
Qed.

(** After a successful [makedirs] the path is a directory. *)
Lemma makedirs_from_ok_dir (rest : list string) :
  ∀ (base : path) (fs fs' : gmap path node),
    makedirs_from base rest fs = (Ok tt, fs') →
    node_at fs base = Some Dir →
    node_at fs' (base ++ rest) = Some Dir.
Proof.
  induction rest as [|c rest IH]; intros base fs fs' Hrun Hbase.
  { injection Hrun as <-. by rewrite app_nil_r. }
  simpl in Hrun. rewrite (cons_middle c base rest), app_assoc.
  assert (∀ g : gmap path node, g !! (base ++ [c]) = Some Dir →
            node_at g (base ++ [c]) = Some Dir) as Hnode.
  { intros g Hg. by destruct (base ++ [c]). }
  destruct (fs !! (base ++ [c])) as [[content|]|] eqn:Hq; [done| |].
  - eapply IH; [done|]. by apply Hnode.
  - eapply IH; [done|]. apply Hnode, lookup_insert_eq.
Qed.

(** Run again on a file system that has everything the first run left,
    a successful [makedirs] succeeds and changes nothing. *)
Lemma makedirs_from_replay (rest : list string) :
  ∀ (base : path) (fs fs' g : gmap path node),
    makedirs_from base rest fs = (Ok tt, fs') →
    extends fs' g →
    makedirs_from base rest g = (Ok tt, g).
Proof.
  induction rest as [|c rest IH]; intros base fs fs' g Hrun Hext; [done|].
  simpl in Hrun. simpl.
  assert (fs' !! (base ++ [c]) = Some Dir) as Hq'.
  { destruct (fs !! (base ++ [c])) as [[content|]|] eqn:Hq; [done| |].
    - by eapply makedirs_from_keeps.
    - eapply makedirs_from_keeps; [done|]. apply lookup_insert_eq. }
  pose proof (Hext (base ++ [c])) as Hg. rewrite Hq' in Hg. rewrite Hg.
  destruct (fs !! (base ++ [c])) as [[content|]|]; [done| |]; by eapply IH.
Qed.



Lemma grown_refl (fs : gmap path node) : grown fs fs.
Proof. intros p. by left. Qed.

Lemma grown_keeps (fs fs' : gmap path node) (p : path) (n : node) :
  grown fs fs' → fs !! p = Some n → fs' !! p = Some n.
Proof. intros H Hp. destruct (H p) as [->|[Hn _]]; congruence. Qed.


Lemma grown_extends (fs fs' : gmap path node) : grown fs fs' → extends fs fs'.
Proof.
  intros H p. destruct (fs !! p) as [n|] eqn:Hp; [|done].
  rewrite (grown_keeps fs fs' p n H Hp). destruct n; eauto.
Qed.

Lemma grown_insert_dir (fs : gmap path node) (p : path) :
  fs !! p = None → grown fs (<[p := Dir]> fs).
Proof.
  intros Hp q. destruct (decide (p = q)) as [<-|Hne].
  - right. by rewrite lookup_insert_eq.
  - left. by rewrite lookup_insert_ne.
Qed.

Lemma grown_trans (fs1 fs2 fs3 : gmap path node) :
  grown fs1 fs2 → grown fs2 fs3 → grown fs1 fs3.
Proof.
  intros H12 H23 p.
  destruct (H12 p) as [H1|[H1 H1']], (H23 p) as [H2|[H2 H2']].
  - left. congruence.
  - right. split; congruence.
  - right. split; congruence.
  - congruence.
Qed.

Lemma makedirs_grown (p : path) (fs fs' : gmap path node) (r : result unit) :
  makedirs p fs = (r, fs') → grown fs fs'.
Proof. intros H q. by eapply makedirs_from_frame. Qed.

Lemma os_mkdir_ok (p : path) (fs fs' : gmap path node) :
  os_mkdir p fs = (Ok tt, fs') →
  p ≠ [] ∧ fs !! p = None ∧ fs' = <[p := Dir]> fs.
Proof.
  unfold os_mkdir. destruct (node_at fs p) as [n|] eqn:Hn; [done|].
  destruct (node_at fs (dirname p)) as [[c|]|]; [done| |done].
  intros [= <-]. by destruct p.
Qed.

Lemma os_mkdir_raise (p : path) (fs fs' : gmap path node) (e : exn) :
  os_mkdir p fs = (Raise e, fs') → fs' = fs.
Proof.
  unfold os_mkdir. destruct (node_at fs p) as [n|]; [by intros [= _ <-]|].
  destruct (node_at fs (dirname p)) as [[c|]|]; by intros [= <-].
Qed.

Lemma write_file_ok (p : path) (c : string) (fs fs' : gmap path node) :
  write_file p c fs = (Ok tt, fs') →
  p ≠ [] ∧ fs !! p ≠ Some Dir ∧ node_at fs (dirname p) = Some Dir ∧
  fs' = <[p := File c]> fs.
Proof.
  unfold write_file.
  destruct (node_at fs p) as [[c'|]|] eqn:Hn;
    destruct (node_at fs (dirname p)) as [[c''|]|]; try done;
    intros [= <-]; (destruct p; [done|]); simpl in Hn; by rewrite Hn.
Qed.

Lemma write_file_raise (p : path) (c : string) (fs fs' : gmap path node) (e : exn) :
  write_file p c fs = (Raise e, fs') → fs' = fs.
Proof.
  unfold write_file.
  destruct (node_at fs p) as [[c'|]|];
    destruct (node_at fs (dirname p)) as [[c''|]|]; by intros [= <-].
Qed.

Lemma write_file_run (p : path) (c : string) (g : gmap path node) :
  p ≠ [] → g !! p ≠ Some Dir → node_at g (dirname p) = Some Dir →
  write_file p c g = (Ok tt, <[p := File c]> g).
Proof.
  intros Hne Hp Hpar. unfold write_file. rewrite Hpar.
  assert (node_at g p = g !! p) as -> by by destruct p.
  by destruct (g !! p) as [[c'|]|].
Qed.

(** *** Extraction of one member: [_extract_member] *)

Section Member.

Variable dest : path.

Lemma _extract_member_unfold (member : ZipInfo) (fs : gmap path node) :
  _extract_member member dest fs =
    if bool_decide (arcname member = []) && negb (is_dir member)
    then (Raise (ValueError "Empty filename."), fs)
    else match upper dest member fs with
         | (Ok _, fs1) => place dest member fs1
         | (Raise e, fs1) => (Raise e, fs1)
         end.
Proof.
  unfold _extract_member, upper, place.
  destruct (bool_decide (arcname member = []) && negb (is_dir member)); [done|].
  cbv zeta. unfold bind, ret, get.
  destruct (negb (bool_decide (dirname (dest ++ arcname member) = []))
            && negb (path_exists fs (dirname (dest ++ arcname member)))).
  - destruct (makedirs _ fs) as [[[]|e] fs1]; [|done].
    destruct (is_dir member); [|done].
    by destruct (negb (path_isdir fs1 (dest ++ arcname member))).
  - destruct (is_dir member); [|done].
    by destruct (negb (path_isdir fs (dest ++ arcname member))).
Qed.

Lemma upper_grown (member : ZipInfo) (fs fs1 : gmap path node) (r : result unit) :
  upper dest member fs = (r, fs1) → grown fs fs1.
Proof.
  unfold upper. destruct (_ && _).
  - apply makedirs_grown.
  - intros [= _ <-]. apply grown_refl.
Qed.


Lemma upper_skip (member : ZipInfo) (g : gmap path node) :
  negb (bool_decide (dirname (dest ++ arcname member) = []))
  && negb (path_exists g (dirname (dest ++ arcname member))) = false →
  upper dest member g = (Ok tt, g).
Proof. unfold upper. by intros ->. Qed.



Lemma place_touched (member : ZipInfo) (fs fs' : gmap path node)
    (r : result unit) (p : path) :
  place dest member fs = (r, fs') → touched member dest r fs fs' p.
Proof.
  unfold place. destruct (is_dir member) eqn:Hdir.
  - destruct (negb (path_isdir fs (dest ++ arcname member))).
    + destruct r as [[]|e].
      * intros (_ & Ht & ->)%os_mkdir_ok.
        destruct (decide (dest ++ arcname member = p)) as [<-|Hne].
        -- right; left. by rewrite lookup_insert_eq.
        -- left. by rewrite lookup_insert_ne.
      * intros ->%os_mkdir_raise. by left.
    + intros [= _ <-]. by left.
  - destruct r as [[]|e].
    + intros (_ & Ht & _ & ->)%write_file_ok.
      destruct (decide (dest ++ arcname member = p)) as [<-|Hne].
      * right; right. by rewrite lookup_insert_eq.
      * left. by rewrite lookup_insert_ne.
    + intros ->%write_file_raise. by left.
Qed.

(** What one extraction does to any one path. *)
Lemma _extract_member_touched (member : ZipInfo) (fs fs' : gmap path node)
    (r : result unit) (p : path) :
  _extract_member member dest fs = (r, fs') → touched member dest r fs fs' p.
Proof.
  rewrite _extract_member_unfold.
  destruct (_ && _); [intros [= _ <-]; by left|].
  destruct (upper dest member fs) as [[[]|e] fs1] eqn:Hup.
  - intros Hpl. pose proof (upper_grown _ _ _ _ Hup p) as Hgr.
    destruct (place_touched _ _ _ _ p Hpl) as [H|[[H H']|(-> & Hd & -> & H & H')]].
    + destruct Hgr as [Hgr|[Hgr Hgr']]; [left|right; left]; split_and?; congruence.
    + destruct Hgr as [Hgr|[Hgr Hgr']]; [|congruence].
      right; left. split; congruence.
    + right; right. split_and!; try done.
      intros Hfs. apply H'. destruct Hgr as [Hgr|[Hgr Hgr']]; congruence.
  - intros [= <- <-]. destruct (upper_grown _ _ _ _ Hup p) as [H|H]; [by left|by right; left].
Qed.

Lemma _extract_member_raise_grown (member : ZipInfo) (fs fs' : gmap path node)
    (e : exn) :
  _extract_member member dest fs = (Raise e, fs') → grown fs fs'.
Proof.
  intros Hrun p.
  destruct (_extract_member_touched _ _ _ _ p Hrun) as [H|[H|(? & _)]];
    [by left|by right|done].
Qed.

Lemma _extract_member_extends (member : ZipInfo) (fs fs' : gmap path node)
    (r : result unit) :
  _extract_member member dest fs = (r, fs') → extends fs fs'.
Proof.
  intros Hrun p.
  destruct (_extract_member_touched _ _ _ _ p Hrun)
    as [H|[[H H']|(_ & _ & _ & H & H')]].
  - rewrite H. destruct (fs !! p) as [[c|]|]; eauto.
  - by rewrite H.
  - destruct (fs !! p) as [[c|]|]; eauto. done.
Qed.

(** A member that is a file is at its target once it has been extracted. *)
Lemma _extract_member_ok_file (member : ZipInfo) (fs fs' : gmap path node) :
  _extract_member member dest fs = (Ok tt, fs') →
  is_dir member = false →
  fs' !! (dest ++ arcname member) = Some (File (data member)).
Proof.
  rewrite _extract_member_unfold. intros Hrun Hdir.
  destruct (_ && _); [done|].
  destruct (upper dest member fs) as [[[]|e] fs1]; [|done].
  unfold place in Hrun. rewrite Hdir in Hrun.
  apply write_file_ok in Hrun as (_ & _ & _ & ->). apply lookup_insert_eq.
Qed.



End Member.

(** *** Extraction of all members: [extractall] *)

Section Members.

Variable dest : path.

Lemma extract_members_cons (member : ZipInfo) (rest : list ZipInfo)
    (fs : gmap path node) :
  extract_members (member :: rest) dest fs =
    match _extract_member member dest fs with
    | (Ok _, fs1) => extract_members rest dest fs1
    | (Raise e, fs1) => (Raise e, fs1)
    end.
Proof. reflexivity. Qed.

Lemma extract_members_app (pre post : list ZipInfo) :
  ∀ fs : gmap path node,
    extract_members (pre ++ post) dest fs =
      match extract_members pre dest fs with
      | (Ok _, fs1) => extract_members post dest fs1
      | (Raise e, fs1) => (Raise e, fs1)
      end.
Proof.
  induction pre as [|member pre IH]; intros fs; [done|].
  rewrite <-app_comm_cons, !extract_members_cons.
  destruct (_extract_member member dest fs) as [[[]|e] fs1]; [apply IH|done].
Qed.

Lemma file_targets_cons (member : ZipInfo) (rest : list ZipInfo) :
  file_targets dest (member :: rest) =
    if is_dir member then file_targets dest rest
    else (dest ++ arcname member) :: file_targets dest rest.
Proof.
  unfold file_targets. rewrite filter_cons.
  destruct (is_dir member); by destruct (decide _).
Qed.

(** What the extraction of a list of members does to any one path: a
    file appears or changes only at the target of a member that is a
    file. *)
Lemma extract_members_touched (members : list ZipInfo) :
  ∀ (fs fs' : gmap path node) (r : result unit) (p : path),
    extract_members members dest fs = (r, fs') →
    fs' !! p = fs !! p ∨
    (fs !! p = None ∧ fs' !! p = Some Dir) ∨
    (p ∈ file_targets dest members ∧ (∃ c, fs' !! p = Some (File c)) ∧
     fs !! p ≠ Some Dir).
Proof.
  induction members as [|member rest IH]; intros fs fs' r p.
  { intros [= _ <-]. by left. }
  rewrite extract_members_cons, file_targets_cons.
  destruct (_extract_member member dest fs) as [[[]|e] fs1] eqn:Hm.
  - intros Hrest.
    pose proof (_extract_member_touched dest _ _ _ _ p Hm) as Hp.
    destruct (IH _ _ _ p Hrest) as [H|[[H H']|(Hin & [c H] & H')]].
    + destruct Hp as [Hp|[[Hp Hp']|(_ & Hd & -> & Hp & Hp')]].
      * left. congruence.
      * right; left. split; congruence.
      * right; right. rewrite Hd. split_and!; [apply list_elem_of_here|exists (data member); congruence|done].
    + destruct Hp as [Hp|[[Hp Hp']|(_ & _ & _ & Hp & _)]]; [|congruence..].
      right; left. split; congruence.
    + right; right. split_and!.
      * destruct (is_dir member); [done|by apply list_elem_of_further].
      * eauto.
      * destruct Hp as [Hp|[[Hp Hp']|(_ & _ & _ & _ & Hp')]]; congruence.
  - intros [= <- <-].
    destruct (_extract_member_raise_grown dest _ _ _ _ Hm p) as [H|H];
      [by left|by right; left].
Qed.

Lemma extract_members_extends (members : list ZipInfo)
    (fs fs' : gmap path node) (r : result unit) :
  extract_members members dest fs = (r, fs') → extends fs fs'.
Proof.
  intros Hrun p.
  destruct (extract_members_touched _ _ _ _ p Hrun) as [H|[[H H']|(_ & [c H] & H')]].
  - rewrite H. destruct (fs !! p) as [[c|]|]; eauto.
  - by rewrite H.
  - destruct (fs !! p) as [[c'|]|]; eauto. done.
Qed.







End Members.

(** *** The whole extraction: [unzip_fs] and [unzip_file] *)


Section Extraction.

Variable zip_decode : zip_reader.

Lemma ZipFile_state (zip_path : path) (fs fs' : gmap path node)
    (r : result (list ZipInfo)) :
  ZipFile zip_decode zip_path fs = (r, fs') → fs' = fs.
Proof.
  unfold ZipFile. destruct (node_at fs zip_path) as [[content|]|];
    [destruct (zip_decode content)|..]; by intros [= _ <-].
Qed.

Lemma unzip_fs_unfold (zip_path dest : path) (fs : gmap path node) :
  unzip_fs zip_decode zip_path dest fs =
    if negb (path_exists fs zip_path)
    then (Raise (FileNotFoundError ("Zip file not found: " +:+ path_str zip_path)), fs)
    else match makedirs dest fs with
         | (Ok _, fs1) =>
             match ZipFile zip_decode zip_path fs1 with
             | (Ok zip_ref, fs2) => extractall zip_ref dest fs2
             | (Raise e, fs2) => (Raise e, fs2)
             end
         | (Raise e, fs1) => (Raise e, fs1)
         end.
Proof. reflexivity. Qed.


(** [unzip_fs] is monotone: what exists goes on existing, as what it was. *)
Lemma unzip_fs_extends (zip_path dest : path) (fs fs' : gmap path node)
    (r : result unit) :
  unzip_fs zip_decode zip_path dest fs = (r, fs') → extends fs fs'.
Proof.
  rewrite unzip_fs_unfold. intros Hrun.
  destruct (negb (path_exists fs zip_path));
    [injection Hrun as _ <-; apply extends_refl|].
  destruct (makedirs dest fs) as [[[]|e] fs1] eqn:Hmk;
    [|injection Hrun as _ <-; by eapply grown_extends, makedirs_grown].
  pose proof (grown_extends _ _ (makedirs_grown _ _ _ _ Hmk)) as Hext.
  destruct (ZipFile zip_decode zip_path fs1) as [[zip_ref|e] fs2] eqn:Hzf;
    apply ZipFile_state in Hzf as ->; [|by injection Hrun as _ <-].
  eapply extends_trans; [done|]. by eapply extract_members_extends.
Qed.


End Extraction.

Lemma getinfo_Some (filelist : list ZipInfo) (n : string) (member : ZipInfo) :
  getinfo filelist n = Some member → member ∈ filelist ∧ filename member = n.
Proof.
  unfold getinfo. intros Hin%last_Some_elem_of.
  by apply list_elem_of_filter in Hin as [? ?].
Qed.

Lemma getinfo_member (filelist : list ZipInfo) (member : ZipInfo) :
  member ∈ filelist → is_Some (getinfo filelist (filename member)).
Proof.
  intros Hin. unfold getinfo. apply last_is_Some.
  intros Hnil.
  assert (member ∈ filter (λ m, filename m = filename member) filelist) as Hf
    by by apply list_elem_of_filter.
  rewrite Hnil in Hf. by apply not_elem_of_nil in Hf.
Qed.

Lemma resolved_member (filelist : list ZipInfo) (member : ZipInfo) :
  member ∈ resolved filelist →
  member ∈ filelist ∧ getinfo filelist (filename member) = Some member.
Proof.
  unfold resolved. intros (n & _ & Hget)%list_elem_of_omap.
  destruct (getinfo_Some _ _ _ Hget) as [Hin <-]. done.
Qed.

(** After a successful extraction, every target of a member that is a
    file holds the data of such a member. *)
Lemma extract_members_holds (dest : path) (members : list ZipInfo) :
  ∀ (fs fs' : gmap path node) (p : path),
    extract_members members dest fs = (Ok tt, fs') →
    p ∈ file_targets dest members →
    ∃ member, member ∈ members ∧ is_dir member = false ∧
              dest ++ arcname member = p ∧
              fs' !! p = Some (File (data member)).
Proof.
  induction members as [|member rest IH]; intros fs fs' p.
  { intros _ Hin. by apply not_elem_of_nil in Hin. }
  rewrite extract_members_cons, file_targets_cons.
  destruct (_extract_member member dest fs) as [[[]|e] fs1] eqn:Hm; [|done].
  intros Hrest Hin.
  destruct (decide (p ∈ file_targets dest rest)) as [Hin'|Hnin].
  { destruct (IH _ _ _ Hrest Hin') as (m & ? & ? & ? & ?).
    exists m. split_and!; [by apply list_elem_of_further|done..]. }
  destruct (is_dir member) eqn:Hd; [done|].
  apply elem_of_cons in Hin as [->|]; [|done].
  exists member. split_and!; [apply list_elem_of_here|done..|].
  pose proof (_extract_member_ok_file dest _ _ _ Hm Hd) as Ht.
  destruct (extract_members_touched dest _ _ _ _ (dest ++ arcname member) Hrest)
    as [H|[[H H']|(Hin & _)]]; congruence.
Qed.

Section Archive.

Variable zip_decode : zip_reader.

(** What [unzip_fs] does when the archive is there, decodes to [filelist]
    and the destination can be made. *)
Lemma unzip_fs_decoded (zip_path dest : path) (fs fs1 : gmap path node)
    (content : string) (filelist : list ZipInfo) :
  node_at fs zip_path = Some (File content) →
  zip_decode content = Some filelist →
  makedirs dest fs = (Ok tt, fs1) →
  unzip_fs zip_decode zip_path dest fs =
    extract_members (resolved filelist) dest fs1.
Proof.
  intros Hzip Hdec Hmk. rewrite unzip_fs_unfold. unfold path_exists.
  rewrite Hzip. cbn [negb]. rewrite Hmk. unfold ZipFile.
  assert (node_at fs1 zip_path = Some (File content)) as ->.
  { destruct zip_path as [|x zip_path]; [done|]. cbn [node_at] in *.
    eapply grown_keeps; [by eapply makedirs_grown|done]. }
  by rewrite Hdec.
Qed.

End Archive.

Lemma dirname_app (l l' : path) : l' ≠ [] → dirname (l ++ l') = l ++ dirname l'.
Proof. apply removelast_app. Qed.

Lemma app_not_prefix (l k : path) : k ≠ [] → ¬ (l ++ k) `prefix_of` l.
Proof.
  intros Hk [k' Heq]. rewrite <-app_assoc in Heq.
  rewrite <-(app_nil_r l) in Heq at 1. apply app_inv_head in Heq.
  symmetry in Heq. apply app_eq_nil in Heq as [? _]. done.
Qed.

Lemma app_ne_self (l k : path) : k ≠ [] → l ++ k ≠ l.
Proof.
  intros Hk Heq. rewrite <-(app_nil_r l) in Heq at 2.
  by apply app_inv_head in Heq.
Qed.

Lemma node_at_app (fs : gmap path node) (l k : path) :
  k ≠ [] → node_at fs (l ++ k) = fs !! (l ++ k).
Proof.
  intros Hk. destruct (l ++ k) eqn:Heq; [|done].
  by apply app_eq_nil in Heq as [_ ?].
Qed.

(** [makedirs] touches nothing but the path it is given and what lies
    above it. *)
Lemma makedirs_from_outside (rest : list string) :
  ∀ (base : path) (fs fs' : gmap path node) (r : result unit) (p : path),
    makedirs_from base rest fs = (r, fs') →
    ¬ p `prefix_of` (base ++ rest) →
    fs' !! p = fs !! p.
Proof.
  induction rest as [|c rest IH]; intros base fs fs' r p Hrun Hout.
  { by injection Hrun as _ <-. }
  simpl in Hrun. rewrite (cons_middle c base rest), app_assoc in Hout.
  destruct (fs !! (base ++ [c])) as [[content|]|] eqn:Hq.
  - by injection Hrun as _ <-.
  - by eapply IH.
  - rewrite (IH _ _ _ _ _ Hrun Hout). apply lookup_insert_ne.
    intros <-. apply Hout. by eexists.
Qed.

Lemma makedirs_from_app_ok (xs ys : list string) :
  ∀ (base : path) (fs fs1 : gmap path node),
    makedirs_from base xs fs = (Ok tt, fs1) →
    makedirs_from base (xs ++ ys) fs = makedirs_from (base ++ xs) ys fs1.
Proof.
  induction xs as [|c xs IH]; intros base fs fs1 Hrun.
  { injection Hrun as <-. by rewrite app_nil_r. }
  simpl in Hrun. rewrite <-app_comm_cons. simpl.
  rewrite (cons_middle c base xs), app_assoc.
  destruct (fs !! (base ++ [c])) as [[content|]|]; [done|by apply IH..].
Qed.

(** A member that is a file is written once the directory above its
    target is there and the target is no directory. *)
Lemma _extract_member_file_run (dest : path) (member : ZipInfo)
    (fs fs1 : gmap path node) :
  is_dir member = false →
  arcname member ≠ [] →
  upper dest member fs = (Ok tt, fs1) →
  fs1 !! (dest ++ arcname member) ≠ Some Dir →
  node_at fs1 (dirname (dest ++ arcname member)) = Some Dir →
  _extract_member member dest fs =
    (Ok tt, <[dest ++ arcname member := File (data member)]> fs1).
Proof.
  intros Hdir Harc Hup Ht Hpar. rewrite _extract_member_unfold, Hup.
  rewrite bool_decide_eq_false_2 by done. cbn [andb].
  unfold place. rewrite Hdir.
  apply write_file_run; [|done..].
  intros [_ ?]%app_eq_nil. done.
Qed.


Section Again.

Variable zip_decode : zip_reader.



End Again.




(** A second run does overwrite: a file changed between the runs is put
    back to what the archive holds. *)
Example unzip_file_overwrites :
  files (snd (unzip_file sample_decode sample_zip_path sample_dest
                (World (<[ ["out"; "c.txt"] := File "edited" ]>
                          (files (snd (unzip_file sample_decode sample_zip_path
                                         sample_dest (zip_world "PKarchive!!")))))
                       [])))
    !! ["out"; "c.txt"] = Some (File "world").
Proof. by vm_compute. Qed.




(** *** A round trip *)

(** C6.  Extracting an archive that holds exactly the entries
    ["a/b.txt"] with "hello" and ["c.txt"] with "world" into a destination
    directory below which there is nothing succeeds, puts a file with
    "hello" at [<dest>/a/b.txt] and a file with "world" at [<dest>/c.txt],
    and leaves no other file below the destination (the only other node
    there is the directory [<dest>/a]). *)
Theorem unzip_file_round_trip
    (zip_decode : zip_reader)
    (zip_path destination_dir : path) (w : world) (content : string)
    (fs1 : gmap path node) :
  node_at (files w) zip_path = Some (File content) →
  zip_decode content = Some [Zip_Info "a/b.txt" "hello"; Zip_Info "c.txt" "world"] →
  makedirs destination_dir (files w) = (Ok tt, fs1) →
  (∀ p, destination_dir `prefix_of` p → p ≠ destination_dir → files w !! p = None) →
  fst (unzip_file zip_decode zip_path destination_dir w) = Ok tt ∧
  files (snd (unzip_file zip_decode zip_path destination_dir w)) =
    <[destination_dir ++ ["c.txt"] := File "world"]>
      (<[destination_dir ++ ["a"; "b.txt"] := File "hello"]>
         (<[destination_dir ++ ["a"] := Dir]> fs1)) ∧
  files (snd (unzip_file zip_decode zip_path destination_dir w))
    !! (destination_dir ++ ["a"; "b.txt"]) = Some (File "hello") ∧
  files (snd (unzip_file zip_decode zip_path destination_dir w))
    !! (destination_dir ++ ["c.txt"]) = Some (File "world") ∧
  ∀ (p : path) (c : string),
    destination_dir `prefix_of` p → p ≠ destination_dir →
    files (snd (unzip_file zip_decode zip_path destination_dir w)) !! p
      = Some (File c) →
    p = destination_dir ++ ["a"; "b.txt"] ∨ p = destination_dir ++ ["c.txt"].
Proof.
  intros Hzip Hdec Hmk Hempty.
  set (dest := destination_dir) in *.
  pose proof (makedirs_grown _ _ _ _ Hmk) as Hgr.
  assert (∀ k, k ≠ [] → fs1 !! (dest ++ k) = None) as Hfree.
  { intros k Hk. unfold makedirs in Hmk.
    rewrite (makedirs_from_outside _ _ _ _ _ (dest ++ k) Hmk)
      by by apply app_not_prefix.
    apply Hempty; [by eexists|by apply app_ne_self]. }
  assert (node_at fs1 dest = Some Dir) as Hdest.
  { unfold makedirs in Hmk. by apply makedirs_from_ok_dir in Hmk. }
  assert (unzip_fs zip_decode zip_path dest (files w) =
            (Ok tt,
             <[dest ++ ["c.txt"] := File "world"]>
               (<[dest ++ ["a"; "b.txt"] := File "hello"]>
                  (<[dest ++ ["a"] := Dir]> fs1)))) as Hrun.
  { rewrite unzip_fs_unfold. unfold path_exists. rewrite Hzip. cbn [negb].
    rewrite Hmk. unfold ZipFile.
    assert (node_at fs1 zip_path = Some (File content)) as ->.
    { destruct zip_path as [|x zip_path]; [done|]. cbn [node_at] in *.
      by eapply grown_keeps. }
    rewrite Hdec. unfold extractall.
    change (omap _ _) with [Zip_Info "a/b.txt" "hello"; Zip_Info "c.txt" "world"].
    rewrite !extract_members_cons.
    rewrite (_extract_member_file_run dest (Zip_Info "a/b.txt" "hello") fs1
               (<[dest ++ ["a"] := Dir]> fs1)); [|done|done|..].
    2:{ unfold upper.
        change (arcname (Zip_Info "a/b.txt" "hello")) with ["a"; "b.txt"].
        rewrite dirname_app by done. change (dirname ["a"; "b.txt"]) with ["a"].
        rewrite bool_decide_eq_false_2 by (intros [_ ?]%app_eq_nil; done).
        unfold path_exists.
        rewrite node_at_app, Hfree by done.
        cbn [negb andb]. unfold makedirs.
        rewrite (makedirs_from_app_ok dest ["a"] [] fs1 fs1)
          by (unfold makedirs in Hmk;
              by eapply makedirs_from_replay, extends_refl).
        cbn [makedirs_from app]. by rewrite Hfree. }
    2:{ change (arcname (Zip_Info "a/b.txt" "hello")) with ["a"; "b.txt"].
        rewrite lookup_insert_ne by (intros [=]%app_inv_head).
        by rewrite Hfree. }
    2:{ change (arcname (Zip_Info "a/b.txt" "hello")) with ["a"; "b.txt"].
        rewrite dirname_app by done. change (dirname ["a"; "b.txt"]) with ["a"].
        rewrite node_at_app by done. apply lookup_insert_eq. }
    change (arcname (Zip_Info "a/b.txt" "hello")) with ["a"; "b.txt"].
    change (data (Zip_Info "a/b.txt" "hello")) with "hello".
    set (fs3 := <[dest ++ ["a"; "b.txt"] := File "hello"]>
                  (<[dest ++ ["a"] := Dir]> fs1)).
    assert (node_at fs3 dest = Some Dir) as Hdest3.
    { destruct dest as [|x dest']; [done|]. cbn [node_at] in *. unfold fs3.
      rewrite !lookup_insert_ne by by apply app_ne_self. done. }
    rewrite extract_members_cons.
    rewrite (_extract_member_file_run dest (Zip_Info "c.txt" "world") fs3 fs3);
      [done|done|done|..].
    - apply upper_skip.
      change (arcname (Zip_Info "c.txt" "world")) with ["c.txt"].
      rewrite dirname_app by done. change (dirname ["c.txt"]) with (@nil string).
      rewrite app_nil_r. unfold path_exists. rewrite Hdest3.
      apply andb_false_r.
    - change (arcname (Zip_Info "c.txt" "world")) with ["c.txt"]. unfold fs3.
      rewrite !lookup_insert_ne by (intros [=]%app_inv_head).
      by rewrite Hfree.
    - change (arcname (Zip_Info "c.txt" "world")) with ["c.txt"].
      rewrite dirname_app by done. change (dirname ["c.txt"]) with (@nil string).
      by rewrite app_nil_r. }
  rewrite unzip_file_files, unzip_file_run, Hrun. cbn [fst snd].
  split; [done|]. split; [done|]. split.
  { rewrite lookup_insert_ne by (intros [=]%app_inv_head).
    apply lookup_insert_eq. }
  split; [apply lookup_insert_eq|].
  intros p c Hpre Hne Hp.
  destruct (decide (p = dest ++ ["c.txt"])) as [|Hne1]; [by right|].
  destruct (decide (p = dest ++ ["a"; "b.txt"])) as [|Hne2]; [by left|].
  rewrite !lookup_insert_ne in Hp by done.
  destruct (decide (p = dest ++ ["a"])) as [->|Hne3].
  { by rewrite lookup_insert_eq in Hp. }
  rewrite lookup_insert_ne in Hp by done.
  destruct (Hgr p) as [H|[_ H]]; [|congruence].
  rewrite Hp in H. by rewrite Hempty in H.
Qed.

Lemma unzip_file_round_trip_witness :
  fst (unzip_file sample_decode sample_zip_path sample_dest
         (zip_world "PKarchive!!")) = Ok tt ∧
  files (snd (unzip_file sample_decode sample_zip_path sample_dest
                (zip_world "PKarchive!!")))
    !! ["out"; "a"; "b.txt"] = Some (File "hello") ∧
  files (snd (unzip_file sample_decode sample_zip_path sample_dest
                (zip_world "PKarchive!!")))
    !! ["out"; "c.txt"] = Some (File "world").
Proof.
  destruct (unzip_file_round_trip sample_decode sample_zip_path sample_dest
              (zip_world "PKarchive!!") "PKarchive!!"
              (<[ ["out"] := Dir ]> (files (zip_world "PKarchive!!"))))
    as (Hok & _ & Hab & Hc & _).
  - reflexivity.
  - reflexivity.
  - reflexivity.
  - intros p [k ->] Hne. simpl.
    rewrite !lookup_insert_ne by done. apply lookup_empty.
  - exact (conj Hok (conj Hab Hc)).
Defined.

Lemma main_cached_witness :
  ensure_zip_exists unreachable sample_paths cached_world = (Ok tt, cached_world) ∧
  pipeline unreachable sample_decode sample_paths cached_world =
    unzip_file sample_decode (tipitaka_translation_db_tarball sample_paths)
      (tipitaka_translation_db_dir sample_paths) cached_world ∧
  ∃ tr, events (snd (main unreachable sample_decode sample_paths cached_world))
          = events cached_world ++ tr ∧
        Forall (λ ev, ¬ is_request ev) tr ∧
        PrGreen ("unzipping " +:+
                 path_name (tipitaka_translation_db_tarball sample_paths)) ∈ tr.
Proof.
  apply (main_cached unreachable sample_decode sample_paths cached_world).
  reflexivity.
Defined.

(** The cached run, spelt out: the archive is extracted next to the
    tarball and the log shows no request. *)
Example sample_cached_run :
  events (snd (main unreachable sample_decode sample_paths cached_world)) =
    [PrTic; PrTitle "unzip tipiṭaka translations db";
     PrGreen "unzipping tipitaka-translation-data.db.zip"; PrYes "ok"; PrToc] ∧
  files (snd (main unreachable sample_decode sample_paths cached_world))
    !! ["resources"; "db"; "a"; "b.txt"] = Some (File "hello").
Proof. split; by vm_compute. Qed.

Lemma main_failed_without_extraction_witness :
  ∃ (e : exn) (w1 : world),
    pipeline unreachable sample_decode sample_paths
      (logged empty_world [PrTic; PrTitle "unzip tipiṭaka translations db"])
      = (Raise e, w1) ∧
    main unreachable sample_decode sample_paths empty_world =
      (Ok tt, logged w1 [PrError "An error occurred during extraction";
                         PrError (str e); PrToc]) ∧
    ∃ tr, events (snd (main unreachable sample_decode sample_paths empty_world))
            = events empty_world ++ tr ∧
          Forall (λ ev, ¬ is_unzipping ev) tr.
Proof.
  refine (proj1 (main_failed_without_extraction unreachable sample_decode
                   sample_paths empty_world _ _)).
  - reflexivity.
  - left. eexists _, _. split; reflexivity.
Defined.

(** A run in which the resolution succeeds and the fetch is refused: the
    error is reported, nothing is extracted and no file is made. *)
Example sample_refused_run :
  fetch_fails (serving [zip_asset] forbidden) sample_paths
    (logged empty_world [PrTic; PrTitle "unzip tipiṭaka translations db"]) ∧
  events (snd (main (serving [zip_asset] forbidden) sample_decode sample_paths
                 empty_world)) =
    [PrTic; PrTitle "unzip tipiṭaka translations db";
     PrInfo "Tipitaka translation zip not found";
     PrInfo "Downloading from GitHub releases...";
     PrInfo "Downloading latest release from GitHub...";
     HttpGet api_url 10 false;
     HttpGet sample_url 60 true;
     PrError ("Error downloading file: " +:+
              "403 Client Error: Forbidden for url: " +:+ sample_url);
     PrError "An error occurred during extraction";
     PrError ("403 Client Error: Forbidden for url: " +:+ sample_url);
     PrToc] ∧
  files (snd (main (serving [zip_asset] forbidden) sample_decode sample_paths
                empty_world)) = ∅.
Proof.
  split; [|split; by vm_compute].
  eexists sample_url, _, _, _. split; [reflexivity|]. split; [done|].
  reflexivity.
Qed.

(** A stream that breaks after two chunks leaves a truncated tarball
    behind, which the next run takes for the cached archive. *)
Example sample_truncated_tarball :
  files (snd (download_file
                (serving [zip_asset] (Replied truncated_response))
                sample_paths sample_url empty_world))
    !! tipitaka_translation_db_tarball sample_paths = Some (File "PKarch").
Proof. by vm_compute. Qed.

(** ** Further properties of the script *)

(** *** [download_latest_release] *)

Lemma api_outcome (requests : string → reply) :
  (∃ e, api_failure requests e) ∨
  (∃ r d, requests api_url = Replied r ∧ ¬ (400 ≤ status_code r < 600) ∧
          json r = Some d).
Proof.
  unfold api_failure.
  destruct (requests api_url) as [msg|r] eqn:Hreq; [left; eauto 8|].
  destruct (decide (400 ≤ status_code r < 600)); [left; eauto 10|].
  destruct (json r) as [d|] eqn:Hjs; [right; eauto|left; eauto 12].
Qed.

Lemma download_latest_release_caught (requests : string → reply) (e : exn)
    (w : world) :
  api_failure requests e →
  download_latest_release requests w =
    (Ok None,
     logged w [PrInfo "Downloading latest release from GitHub...";
               HttpGet api_url 10 false;
               PrError ("Error getting latest release: " +:+ str e)]).
Proof.
  unfold download_latest_release. rewrite bind_emit.
  intros [(msg & Hreq & ->)|[(r & Hreq & Hst & ->)|(r & Hreq & Hst & Hjs & ->)]].
  - erewrite try_except_run_raise.
    2:{ by erewrite bind_run_raise by by apply requests_get_failed. }
    rewrite bind_emit. unfold ret. by rewrite !logged_logged.
  - erewrite try_except_run_raise.
    2:{ erewrite bind_run by by apply requests_get_replied.
        by erewrite bind_run_raise by by apply raise_for_status_error. }
    rewrite bind_emit. unfold ret. by rewrite !logged_logged.
  - erewrite try_except_run_raise.
    2:{ erewrite bind_run by by apply requests_get_replied.
        erewrite bind_run by by apply raise_for_status_ok.
        unfold response_json. rewrite Hjs. by rewrite bind_raise. }
    rewrite bind_emit. unfold ret. by rewrite !logged_logged.
Qed.

(** Whatever the network does, [download_latest_release] returns, leaves
    the file system alone and makes one request. *)
Lemma download_latest_release_shape (requests : string → reply) (w : world) :
  ∃ (o : option string) (tail : list event),
    download_latest_release requests w =
      (Ok o, logged w ([PrInfo "Downloading latest release from GitHub...";
                        HttpGet api_url 10 false] ++ tail)) ∧
    requests_made tail = [].
Proof.
  destruct (api_outcome requests) as [[e He]|(r & d & Hreq & Hst & Hjs)].
  - rewrite (download_latest_release_caught requests e w He).
    by exists None, [PrError ("Error getting latest release: " +:+ str e)].
  - rewrite (download_latest_release_replied requests r d w Hreq Hst Hjs).
    cbv zeta. destruct (truthy _).
    + eexists _, []. by rewrite app_nil_r.
    + rewrite logged_logged. by eexists None, [_].
Qed.

(** X1.  Whatever the network answers, [download_latest_release] does not
    raise, does not touch the file system, and makes exactly one request:
    a GET of the releases URL with a timeout of 10, not streamed. *)
Theorem download_latest_release_one_request
    (requests : string → reply) (w : world) :
  ∃ (o : option string) (w' : world) (tr : list event),
    download_latest_release requests w = (Ok o, w') ∧
    files w' = files w ∧
    events w' = events w ++ tr ∧
    requests_made tr = [HttpGet api_url 10 false].
Proof.
  destruct (download_latest_release_shape requests w) as (o & tail & -> & Htail).
  eexists o, _, _. split; [done|]. split; [done|]. split; [done|].
  unfold requests_made in *. rewrite filter_app, Htail. by vm_compute.
Qed.

(** X2.  A URL that [download_latest_release] returns is never empty, and
    it is the [browser_download_url] of an asset of the answered release:
    the first one named ["tipitaka-translation-data.db.zip"]. *)
Theorem download_latest_release_sound
    (requests : string → reply) (w : world) (url : string) :
  fst (download_latest_release requests w) = Ok (Some url) →
  url ≠ "" ∧
  ∃ (r : response) (d : release) (a : asset),
    requests api_url = Replied r ∧
    ¬ (400 ≤ status_code r < 600) ∧
    json r = Some d ∧
    a ∈ default [] (assets d) ∧
    head (filter is_zip_asset (default [] (assets d))) = Some a ∧
    name a = asset_name ∧
    browser_download_url a = url.
Proof.
  destruct (api_outcome requests) as [[e He]|(r & d & Hreq & Hst & Hjs)].
  { by rewrite (download_latest_release_caught requests e w He). }
  rewrite (download_latest_release_replied requests r d w Hreq Hst Hjs).
  cbv zeta. rewrite scan_assets_head_filter.
  destruct (head (filter is_zip_asset (default [] (assets d)))) as [a|] eqn:Hhd;
    [|done].
  cbn [truthy]. destruct (decide (browser_download_url a = "")) as [|Hne];
    [done|].
  intros [= <-]. split; [done|]. exists r, d, a.
  apply head_Some_elem_of in Hhd as Hin.
  apply list_elem_of_filter in Hin as [Hzip Hin]. done.
Qed.

Lemma download_latest_release_sound_witness :
  sample_url ≠ "" ∧
  ∃ (r : response) (d : release) (a : asset),
    serving [readme_asset; zip_asset] refused api_url = Replied r ∧
    ¬ (400 ≤ status_code r < 600) ∧
    json r = Some d ∧
    a ∈ default [] (assets d) ∧
    head (filter is_zip_asset (default [] (assets d))) = Some a ∧
    name a = asset_name ∧
    browser_download_url a = sample_url.
Proof.
  apply (download_latest_release_sound
           (serving [readme_asset; zip_asset] refused) empty_world sample_url).
  by vm_compute.
Defined.

(** X3.  A release whose JSON has no ["assets"] key is read as a release
    without assets: [None] is returned and the missing zip file is what the
    log reports. *)
Theorem download_latest_release_no_assets_key
    (requests : string → reply) (r : response) (w : world) :
  requests api_url = Replied r →
  ¬ (400 ≤ status_code r < 600) →
  json r = Some (Release None) →
  download_latest_release requests w =
    (Ok None,
     logged w [PrInfo "Downloading latest release from GitHub...";
               HttpGet api_url 10 false;
               PrError "Error getting latest release: Could not find zip file in latest release"]).
Proof.
  intros Hreq Hst Hjs.
  rewrite (download_latest_release_replied requests r _ w Hreq Hst Hjs).
  cbn. by rewrite logged_logged.
Qed.

Lemma download_latest_release_no_assets_key_witness :
  fst (download_latest_release
         (λ _, Replied (Response 200 "OK" None (Some (Release None)) no_body api_url ""))
         empty_world) = Ok None.
Proof.
  rewrite (download_latest_release_no_assets_key
             (λ _, Replied (Response 200 "OK" None (Some (Release None)) no_body api_url ""))
             (Response 200 "OK" None (Some (Release None)) no_body api_url "")
             empty_world); [done|done|simpl; lia|done].
Defined.

(** X4.  When the release query fails -- in transit, with a client or
    server error status, or with a body that [response.json()] does not
    decode -- the exception is caught: [None] is returned and the log
    carries [str(e)] after "Error getting latest release: ".  That text is
    the transport's message, the status line with the URL of the response
    ("<status> Client Error: <reason> for url: <response.url>", or
    "Server Error" from 500 on), or the message of the decoder. *)
Theorem download_latest_release_failure_logged
    (requests : string → reply) (e : exn) (w : world) :
  api_failure requests e →
  download_latest_release requests w =
    (Ok None,
     logged w [PrInfo "Downloading latest release from GitHub...";
               HttpGet api_url 10 false;
               PrError ("Error getting latest release: " +:+ str e)]) ∧
  ((∃ msg, requests api_url = ConnectionFailed msg ∧ str e = msg) ∨
   (∃ r, requests api_url = Replied r ∧
         (str e = http_error_msg r ∨ str e = json_error r))).
Proof.
  intros He. split; [by apply download_latest_release_caught|].
  destruct He as [(msg & Hreq & ->)|[(r & Hreq & _ & ->)|(r & Hreq & _ & _ & ->)]].
  - left. by exists msg.
  - right. exists r. split; [done|by left].
  - right. exists r. split; [done|by right].
Qed.

Lemma download_latest_release_failure_logged_witness :
  download_latest_release (λ _, Replied rate_limited) empty_world =
    (Ok None,
     logged empty_world
       [PrInfo "Downloading latest release from GitHub...";
        HttpGet api_url 10 false;
        PrError ("Error getting latest release: " +:+
                 "403 Client Error: rate limit exceeded for url: " +:+ api_url)]).
Proof.
  refine (proj1 (download_latest_release_failure_logged
                   (λ _, Replied rate_limited)
                   (HTTPError 403 ("403 Client Error: rate limit exceeded for url: "
                                   +:+ api_url))
                   empty_world _)).
  right. left. exists rate_limited.
  split; [reflexivity|]. split; [simpl; lia|reflexivity].
Defined.

(** *** [ensure_zip_exists] *)


Section Cache.

Variable requests : string → reply.
Variable pth : ProjectPaths.

Local Abbreviation tarball := (tipitaka_translation_db_tarball pth).
Local Abbreviation db_dir := (tipitaka_translation_db_dir pth).


End Cache.

(** X5.  With the tarball missing, when [download_latest_release] comes
    back without a usable URL, [ensure_zip_exists] raises
    [Exception("Failed to get download URL")]: the release query is the only
    request it has made, no download is tried and the file system is as it
    was. *)
Theorem ensure_zip_exists_no_url
    (requests : string → reply) (pth : ProjectPaths) (w : world) :
  path_exists (files w) (tipitaka_translation_db_tarball pth) = false →
  resolution_fails requests w →
  ∃ (w' : world) (tr : list event),
    ensure_zip_exists requests pth w =
      (Raise (Exception "Failed to get download URL"), w') ∧
    files w' = files w ∧
    events w' = events w ++ tr ∧
    requests_made tr = [HttpGet api_url 10 false].
Proof.
  intros Hmiss (o & w1 & Hdl & Ho).
  rewrite ensure_zip_exists_miss by done.
  destruct (download_latest_release_shape requests (logged w not_found_msgs))
    as (o' & tail & Hshape & Htail).
  rewrite Hshape in Hdl. injection Hdl as -> <-.
  rewrite Hshape, Ho, logged_logged.
  eexists _, _. split; [done|]. split; [done|]. split; [done|].
  unfold requests_made in *. rewrite !filter_app, Htail. by vm_compute.
Qed.

Lemma ensure_zip_exists_no_url_witness :
  ∃ (w' : world) (tr : list event),
    ensure_zip_exists (serving [readme_asset; blank_asset] refused) sample_paths
      empty_world =
      (Raise (Exception "Failed to get download URL"), w') ∧
    files w' = files empty_world ∧
    events w' = events empty_world ++ tr ∧
    requests_made tr = [HttpGet api_url 10 false].
Proof.
  apply (ensure_zip_exists_no_url (serving [readme_asset; blank_asset] refused)
           sample_paths empty_world).
  - reflexivity.
  - eexists _, _. split; reflexivity.
Defined.





(** X18.  A response to the download that passes [raise_for_status] but
    announces a length that [int] refuses, or one of more megabytes than a
    float can count, makes the download fail before the directory is made
    or the file opened: the [ValueError] of [int], or an [OverflowError]
    with "integer division result too large for a float", is logged after
    "Error downloading file: " and raised again, and the file system is as
    it was. *)
Theorem download_file_bad_length
    (requests : string → reply) (pth : ProjectPaths) (url : string)
    (r : response) (w : world) (e : exn) :
  requests url = Replied r →
  ¬ (400 ≤ status_code r < 600) →
  (∃ msg, content_length r = Some (NotNumeric msg) ∧ e = ValueError msg) ∨
  (∃ total, announced r total ∧ float_overflow total = true ∧
            e = OverflowError "integer division result too large for a float") →
  ∃ w' : world,
    download_file requests pth url w = (Raise e, w') ∧
    files w' = files w ∧
    events w' = events w ++ [HttpGet url 60 true;
                             PrError ("Error downloading file: " +:+ str e)].
Proof.
  intros Hreq Hst [(msg & Hcl & ->)|(total & Hcl & Hov & ->)].
  - rewrite (download_file_bad_header requests pth url msg r w Hreq Hst Hcl).
    by eexists.
  - rewrite (download_file_overflow requests pth url r total w Hreq Hst Hcl Hov).
    by eexists.
Qed.

Lemma download_file_bad_length_witness :
  ∃ w' : world,
    download_file (serving [zip_asset] (Replied huge_response)) sample_paths
      sample_url empty_world
      = (Raise (OverflowError "integer division result too large for a float"),
         w') ∧
    files w' = files empty_world ∧
    events w' = events empty_world ++
                [HttpGet sample_url 60 true;
                 PrError ("Error downloading file: " +:+
                          "integer division result too large for a float")].
Proof.
  apply (download_file_bad_length
           (serving [zip_asset] (Replied huge_response)) sample_paths
           sample_url huge_response empty_world
           (OverflowError "integer division result too large for a float")).
  - reflexivity.
  - simpl. lia.
  - right. exists (10 ^ 400). split; [reflexivity|]. split; [|reflexivity].
    by vm_compute.
Defined.

(** The same download with a length that is no number. *)
Example sample_garbled_length :
  download_file (serving [zip_asset] (Replied garbled_response)) sample_paths
    sample_url empty_world
  = (Raise (ValueError "invalid literal for int() with base 10: 'abc'"),
     World ∅ [HttpGet sample_url 60 true;
              PrError ("Error downloading file: " +:+
                       "invalid literal for int() with base 10: 'abc'")]).
Proof. by vm_compute. Qed.

(** X8.  The keep-alive chunks of a stream count for nothing: the loop
    writes, reports and ends as it does on the same stream without its empty
    chunks. *)
Theorem download_loop_skips_empty
    (f : path) (total completed : Z) (l : list string) (br : option string)
    (w : world) :
  download_loop f total completed l br w =
  download_loop f total completed (filter (λ chunk, chunk ≠ "") l) br w.
Proof.
  revert completed w. induction l as [|chunk rest IH]; intros completed w; [done|].
  rewrite filter_cons. cbn [download_loop].
  destruct (decide (chunk = "")) as [->|Hne].
  - rewrite decide_False by (intros H; by apply H). apply IH.
  - rewrite decide_True by done. cbn [download_loop].
    rewrite decide_False by done.
    unfold bind. destruct (lift_fs (f_write f chunk) w) as [[[]|e] w1]; [|done].
    destruct (emit _ w1) as [[[]|e] w2]; [|done]. apply IH.
Qed.

(** *** [unzip_file] *)

(** X9.  When there is nothing at the archive path, [unzip_file] raises
    [FileNotFoundError("Zip file not found: <path>")] right after announcing
    itself: the destination directory is not made and the file system is as
    it was. *)
Theorem unzip_file_missing_archive
    (zip_decode : zip_reader)
    (zip_path destination_dir : path) (w : world) :
  path_exists (files w) zip_path = false →
  unzip_file zip_decode zip_path destination_dir w =
    (Raise (FileNotFoundError ("Zip file not found: " +:+ path_str zip_path)),
     logged w [PrGreen ("unzipping " +:+ path_name zip_path)]).
Proof.
  intros Hmiss. rewrite unzip_file_run, unzip_fs_unfold, Hmiss. done.
Qed.

Lemma unzip_file_missing_archive_witness :
  unzip_file sample_decode sample_zip_path sample_dest empty_world =
    (Raise (FileNotFoundError "Zip file not found: /downloads/archive.zip"),
     logged empty_world [PrGreen "unzipping archive.zip"]).
Proof.
  apply (unzip_file_missing_archive sample_decode sample_zip_path sample_dest
           empty_world).
  reflexivity.
Defined.

(** X10.  [unzip_file] removes nothing: whatever the archive holds and
    however the run ends, every file that was there is still a file and
    every directory still a directory. *)
Theorem unzip_file_keeps_nodes
    (zip_decode : zip_reader)
    (zip_path destination_dir : path) (w : world) :
  extends (files w)
    (files (snd (unzip_file zip_decode zip_path destination_dir w))).
Proof.
  rewrite unzip_file_files.
  destruct (unzip_fs zip_decode zip_path destination_dir (files w))
    as [r fs'] eqn:Hrun.
  by eapply unzip_fs_extends.
Qed.



(** X12.  Extraction stops at the first member that fails and takes
    nothing back: [unzip_file] raises that member's exception, the members
    after it are not extracted, and the members before it that are files
    stay where they were put. *)
Theorem unzip_file_stops_at_failure
    (zip_decode : zip_reader)
    (zip_path destination_dir : path) (w : world)
    (content : string) (filelist pre post : list ZipInfo) (member : ZipInfo)
    (fs1 fs2 fs3 : gmap path node) (e : exn) :
  node_at (files w) zip_path = Some (File content) →
  zip_decode content = Some filelist →
  makedirs destination_dir (files w) = (Ok tt, fs1) →
  resolved filelist = pre ++ member :: post →
  extract_members pre destination_dir fs1 = (Ok tt, fs2) →
  _extract_member member destination_dir fs2 = (Raise e, fs3) →
  unzip_file zip_decode zip_path destination_dir w =
    (Raise e,
     World fs3 (events w ++ [PrGreen ("unzipping " +:+ path_name zip_path)])) ∧
  ∀ earlier, earlier ∈ pre → is_dir earlier = false →
    ∃ c, fs3 !! (destination_dir ++ arcname earlier) = Some (File c).
Proof.
  intros Hzip Hdec Hmk Hres Hpre Hfail. split.
  - rewrite unzip_file_run.
    rewrite (unzip_fs_decoded _ _ _ _ _ _ _ Hzip Hdec Hmk), Hres.
    by rewrite extract_members_app, Hpre, extract_members_cons, Hfail.
  - intros earlier Hin Hd.
    assert (destination_dir ++ arcname earlier ∈ file_targets destination_dir pre)
      as Ht.
    { unfold file_targets. apply list_elem_of_fmap. exists earlier.
      split; [done|]. by apply list_elem_of_filter. }
    destruct (extract_members_holds _ _ _ _ _ Hpre Ht) as (m & _ & _ & _ & Hm).
    pose proof (grown_keeps _ _ _ _ (_extract_member_raise_grown _ _ _ _ _ Hfail) Hm).
    eauto.
Qed.

(** X13.  After a successful [unzip_file], the target of every member of
    the archive that is a file holds data of the archive: the data of a
    member with that target which is the last of its name (when a name
    occurs twice, the earlier member's data is never written). *)
Theorem unzip_file_extracts
    (zip_decode : zip_reader)
    (zip_path destination_dir : path) (w : world)
    (content : string) (filelist : list ZipInfo) (member : ZipInfo) :
  node_at (files w) zip_path = Some (File content) →
  zip_decode content = Some filelist →
  fst (unzip_file zip_decode zip_path destination_dir w) = Ok tt →
  member ∈ filelist →
  is_dir member = false →
  ∃ written,
    written ∈ filelist ∧
    arcname written = arcname member ∧
    getinfo filelist (filename written) = Some written ∧
    files (snd (unzip_file zip_decode zip_path destination_dir w))
      !! (destination_dir ++ arcname member) = Some (File (data written)).
Proof.
  intros Hzip Hdec Hok Hin Hd. revert Hok.
  rewrite unzip_file_files, unzip_file_run.
  destruct (makedirs destination_dir (files w)) as [[[]|e] fs1] eqn:Hmk; cycle 1.
  { rewrite unzip_fs_unfold. unfold path_exists. rewrite Hzip. cbn [negb].
    by rewrite Hmk. }
  rewrite (unzip_fs_decoded _ _ _ _ _ _ _ Hzip Hdec Hmk).
  destruct (extract_members _ _ fs1) as [[[]|e] fs'] eqn:Hrun; [|done].
  intros _. cbn [snd].
  destruct (getinfo_member _ _ Hin) as [last_one Hlast].
  destruct (getinfo_Some _ _ _ Hlast) as [_ Hname].
  assert (destination_dir ++ arcname member
            ∈ file_targets destination_dir (resolved filelist)) as Ht.
  { unfold file_targets. apply list_elem_of_fmap. exists last_one. split.
    - unfold arcname. by rewrite Hname.
    - apply list_elem_of_filter. split.
      + unfold is_dir in *. by rewrite Hname.
      + unfold resolved. apply list_elem_of_omap. exists (filename member).
        split; [|done]. unfold namelist. by apply list_elem_of_fmap_2. }
  destruct (extract_members_holds _ _ _ _ _ Hrun Ht)
    as (written & Hres & _ & Harc%app_inv_head & Hw).
  destruct (resolved_member _ _ Hres) as [? ?].
  by exists written.
Qed.

Lemma unzip_file_extracts_witness :
  ∃ written,
    written ∈ [Zip_Info "x.txt" "first"; Zip_Info "x.txt" "second"] ∧
    arcname written = arcname (Zip_Info "x.txt" "first") ∧
    getinfo [Zip_Info "x.txt" "first"; Zip_Info "x.txt" "second"]
      (filename written) = Some written ∧
    files (snd (unzip_file
                  (always [Zip_Info "x.txt" "first"; Zip_Info "x.txt" "second"])
                  sample_zip_path sample_dest (zip_world "PK")))
      !! (sample_dest ++ arcname (Zip_Info "x.txt" "first"))
      = Some (File (data written)).
Proof.
  apply (unzip_file_extracts
           (always [Zip_Info "x.txt" "first"; Zip_Info "x.txt" "second"])
           sample_zip_path sample_dest (zip_world "PK") "PK").
  - reflexivity.
  - reflexivity.
  - by vm_compute.
  - apply list_elem_of_here.
  - reflexivity.
Defined.

Lemma unzip_file_stops_at_failure_witness :
  unzip_file
    (always [Zip_Info "a" "file"; Zip_Info "a/b" "child"; Zip_Info "z" "never"])
    sample_zip_path sample_dest (zip_world "PK") =
    (Raise (NotADirectoryError "/out/a/b"),
     World (<[ ["out"; "a"] := File "file" ]>
              (<[ ["out"] := Dir ]> (files (zip_world "PK"))))
           (events (zip_world "PK") ++ [PrGreen "unzipping archive.zip"])) ∧
  files (snd (unzip_file
                (always [Zip_Info "a" "file"; Zip_Info "a/b" "child";
                            Zip_Info "z" "never"])
                sample_zip_path sample_dest (zip_world "PK")))
    !! ["out"; "z"] = None.
Proof.
  split; [|by vm_compute].
  refine (proj1 (unzip_file_stops_at_failure
                   (always [Zip_Info "a" "file"; Zip_Info "a/b" "child";
                               Zip_Info "z" "never"])
                   sample_zip_path sample_dest (zip_world "PK") "PK"
                   [Zip_Info "a" "file"; Zip_Info "a/b" "child"; Zip_Info "z" "never"]
                   [Zip_Info "a" "file"] [Zip_Info "z" "never"]
                   (Zip_Info "a/b" "child")
                   (<[ ["out"] := Dir ]> (files (zip_world "PK")))
                   (<[ ["out"; "a"] := File "file" ]>
                      (<[ ["out"] := Dir ]> (files (zip_world "PK"))))
                   (<[ ["out"; "a"] := File "file" ]>
                      (<[ ["out"] := Dir ]> (files (zip_world "PK"))))
                   (NotADirectoryError "/out/a/b")
                   _ _ _ _ _ _)); reflexivity.
Defined.

Lemma _extract_member_ext (member member' : ZipInfo) (dest : path)
    (fs : gmap path node) :
  arcname member = arcname member' →
  is_dir member = is_dir member' →
  data member = data member' →
  _extract_member member dest fs = _extract_member member' dest fs.
Proof.
  intros Ha Hd Hdata. rewrite !_extract_member_unfold.
  unfold upper, place. by rewrite Ha, Hd, Hdata.
Qed.

Lemma endswith_slash_cons (c : ascii) (s : string) :
  s ≠ "" → endswith_slash (String c s) = endswith_slash s.
Proof. by destruct s. Qed.

(** X14.  Names that point out of the destination are brought back into
    it: a member named ["../" + s], ["/" + s] or ["./" + s] is extracted
    exactly as the member named [s] is, so that ["../../etc/passwd"] and
    ["/etc/passwd"] both go to [<dest>/etc/passwd]. *)
Theorem _extract_member_relative
    (s content : string) (dest : path) (fs : gmap path node) :
  s ≠ "" →
  _extract_member (Zip_Info ("../" +:+ s) content) dest fs
    = _extract_member (Zip_Info s content) dest fs ∧
  _extract_member (Zip_Info ("/" +:+ s) content) dest fs
    = _extract_member (Zip_Info s content) dest fs ∧
  _extract_member (Zip_Info ("./" +:+ s) content) dest fs
    = _extract_member (Zip_Info s content) dest fs.
Proof.
  intros Hs.
  split_and!; apply _extract_member_ext; try done.
  - unfold is_dir. cbn [filename].
    change ("../" +:+ s) with (String "." (String "." (String "/" s))).
    by rewrite !endswith_slash_cons by done.
  - unfold is_dir. cbn [filename].
    change ("/" +:+ s) with (String "/" s).
    by rewrite !endswith_slash_cons by done.
  - unfold is_dir. cbn [filename].
    change ("./" +:+ s) with (String "." (String "/" s)).
    by rewrite !endswith_slash_cons by done.
Qed.

Lemma _extract_member_relative_witness :
  _extract_member (Zip_Info "../../etc/passwd" "root") sample_dest ∅
    = _extract_member (Zip_Info "../etc/passwd" "root") sample_dest ∅.
Proof.
  apply (_extract_member_relative "../etc/passwd" "root" sample_dest ∅).
  done.
Defined.

(** *** [main] *)

Lemma emits_weaken {A} (P Q : event → Prop) (m : M A) :
  (∀ ev, P ev → Q ev) → emits P m → emits Q m.
Proof.
  intros HPQ Hm w. destruct (Hm w) as (tr & Htr & HP).
  exists tr. split; [done|]. by eapply Forall_impl.
Qed.

(** X15.  [main] never raises: whatever the network, the archive and the
    file system do, it returns, and its log opens with [pr.tic()] and the
    title and closes with [pr.toc()]. *)
Theorem main_returns
    (requests : string → reply) (zip_decode : zip_reader)
    (pth : ProjectPaths) (w : world) :
  ∃ (w' : world) (tr : list event),
    main requests zip_decode pth w = (Ok tt, w') ∧
    events w' = events w ++ [PrTic; PrTitle "unzip tipiṭaka translations db"]
                  ++ tr ++ [PrToc].
Proof.
  rewrite main_run.
  assert (emits (λ _, True) (pipeline requests zip_decode pth)) as Hp.
  { apply emits_bind.
    - eapply emits_weaken; [|apply ensure_zip_exists_quiet]. done.
    - intros _. eapply emits_weaken; [|apply unzip_file_no_request]. done. }
  destruct (Hp (logged w [PrTic; PrTitle "unzip tipiṭaka translations db"]))
    as (tr & Htr & _).
  destruct (pipeline _ _ _ _) as [[[]|e] w1]; cbn [snd events logged] in Htr.
  - exists (logged w1 [PrToc]), tr. split; [done|].
    cbn [events logged]. by rewrite Htr, <-!app_assoc.
  - eexists _, (tr ++ [PrError "An error occurred during extraction";
                       PrError (str e)]).
    split; [done|]. cbn [events logged]. by rewrite Htr, <-!app_assoc.
Qed.

(** X16.  Once [ensure_zip_exists] has returned in a run of [main], the
    tarball is still there when [main] is over, whatever the extraction
    did, and every later [ensure_zip_exists] returns at once: the archive is
    downloaded at most once. *)
Theorem main_then_cached
    (requests : string → reply) (zip_decode : zip_reader)
    (pth : ProjectPaths) (w w1 : world) :
  ensure_zip_exists requests pth
    (logged w [PrTic; PrTitle "unzip tipiṭaka translations db"]) = (Ok tt, w1) →
  path_exists (files (snd (main requests zip_decode pth w)))
    (tipitaka_translation_db_tarball pth) = true ∧
  ∀ requests' : string → reply,
    ensure_zip_exists requests' pth (snd (main requests zip_decode pth w))
      = (Ok tt, snd (main requests zip_decode pth w)).
Proof.
  intros Hens.
  assert (path_exists (files (snd (main requests zip_decode pth w)))
            (tipitaka_translation_db_tarball pth) = true) as Hex.
  { rewrite main_run, pipeline_run, Hens.
    pose proof (ensure_zip_exists_ok_tarball _ _ _ _ Hens) as Hw1.
    assert (extends (files w1)
              (files (snd (unzip_file zip_decode
                             (tipitaka_translation_db_tarball pth)
                             (tipitaka_translation_db_dir pth) w1)))) as Hext.
    { rewrite unzip_file_files.
      destruct (unzip_fs _ _ _ (files w1)) as [r fs'] eqn:Hrun.
      by eapply unzip_fs_extends. }
    destruct (unzip_file _ _ _ w1) as [[[]|e] w2]; cbn [snd files logged] in *;
      by eapply extends_exists. }
  split; [done|]. intros requests'. by apply ensure_zip_exists_hit.
Qed.

Lemma main_then_cached_witness :
  path_exists
    (files (snd (main (serving [zip_asset] (Replied payload_response))
                   sample_decode sample_paths empty_world)))
    (tipitaka_translation_db_tarball sample_paths) = true ∧
  ∀ requests' : string → reply,
    ensure_zip_exists requests' sample_paths
      (snd (main (serving [zip_asset] (Replied payload_response))
              sample_decode sample_paths empty_world))
      = (Ok tt, snd (main (serving [zip_asset] (Replied payload_response))
                       sample_decode sample_paths empty_world)).
Proof.
  eapply (main_then_cached (serving [zip_asset] (Replied payload_response))
            sample_decode sample_paths empty_world).
  reflexivity.
Defined.

(** X17.  A cached tarball that the zip reader does not open is never
    fetched again: when the destination directory can be made, [main] makes
    no request, makes that directory, fails to open the archive and reports
    [str(e)] of the exception that the reader raised for these bytes, which
    is no fixed text. *)
Theorem main_corrupt_cache
    (requests : string → reply) (zip_decode : zip_reader)
    (pth : ProjectPaths) (w : world) (content : string)
    (fs1 : gmap path node) :
  node_at (files w) (tipitaka_translation_db_tarball pth) = Some (File content) →
  zip_decode content = None →
  makedirs (tipitaka_translation_db_dir pth) (files w) = (Ok tt, fs1) →
  main requests zip_decode pth w =
    (Ok tt,
     World fs1
       (events w ++
        [PrTic; PrTitle "unzip tipiṭaka translations db";
         PrGreen ("unzipping " +:+ path_name (tipitaka_translation_db_tarball pth));
         PrError "An error occurred during extraction";
         PrError (str (read_error zip_decode content));
         PrToc])).
Proof.
  intros Hzip Hdec Hmk.
  assert (path_exists (files w) (tipitaka_translation_db_tarball pth) = true)
    as Hex by (unfold path_exists; by rewrite Hzip).
  rewrite main_run, pipeline_run, ensure_zip_exists_hit by done.
  rewrite unzip_file_run, unzip_fs_unfold. cbn [files logged].
  rewrite Hex. cbn [negb]. rewrite Hmk. unfold ZipFile.
  assert (node_at fs1 (tipitaka_translation_db_tarball pth) = Some (File content))
    as ->.
  { destruct (tipitaka_translation_db_tarball pth) as [|x p]; [done|].
    cbn [node_at] in *. eapply grown_keeps; [by eapply makedirs_grown|done]. }
  rewrite Hdec. unfold logged. cbn [files events str].
  by rewrite <-!app_assoc.
Qed.

Lemma main_corrupt_cache_witness :
  main unreachable sample_decode sample_paths
    (World (<[tipitaka_translation_db_tarball sample_paths := File "PKarch"]>
              (<[ ["resources"; "db"] := Dir ]> (<[ ["resources"] := Dir ]> ∅))) [])
  = (Ok tt,
     World (<[tipitaka_translation_db_tarball sample_paths := File "PKarch"]>
              (<[ ["resources"; "db"] := Dir ]> (<[ ["resources"] := Dir ]> ∅)))
       [PrTic; PrTitle "unzip tipiṭaka translations db";
        PrGreen "unzipping tipitaka-translation-data.db.zip";
        PrError "An error occurred during extraction";
        PrError "File is not a zip file";
        PrToc]).
Proof.
  apply (main_corrupt_cache unreachable sample_decode sample_paths
           (World (<[tipitaka_translation_db_tarball sample_paths := File "PKarch"]>
                     (<[ ["resources"; "db"] := Dir ]> (<[ ["resources"] := Dir ]> ∅)))
                  [])
           "PKarch"); reflexivity.
Defined.
